(** * Entity deletion dialog and entity lifecycle of firecms

    Shallow embedding of [collection/internal/DeleteEntityDialog.tsx] and
    of the entity model ([EntitySchema], [Entity], hook props) it is
    written against, followed by the properties of the delete workflow.
    The dialog calls [deleteEntity] of models/firestore, which is not among
    the sources: the dialog is embedded over any [deleteEntity], and the
    lifecycle engine of models/firestore (the delete and the save
    operation) is modelled from the specification in [Firestore].

    Effects are explicit.  Everything the code does to the outside (opening
    a snackbar, logging to the console, calling the store, calling a
    callback prop) is appended to a trace kept in the environment [Env];
    the component's React state is the record [DialogState].  A render
    reads the ref before the effect of that render writes it; [rendered]
    gives the state as the render on screen has it, and [render] and
    [handleOk] are what that one render returns and the handler it made.
    Promises are resumptions over [Env]: a pending promise holds the code
    that runs when the event loop resumes it, up to its next suspension
    point. *)

From Stdlib Require Import List String Bool Arith Lia.
Import ListNotations.
Open Scope string_scope.

Set Implicit Arguments.

(** ** Entity model (models/entities) *)

(** A JavaScript [Error]; the handlers only read [message]. *)
Record Error := { message : string }.

(** [firebase.firestore.DocumentReference]: the storage location of a
    document, a collection path and an id. *)
Record DocumentReference := {
  ref_path : string;
  ref_id : string
}.

(** [EntityStatus = "new" | "existing" | "copy"] *)
Inductive EntityStatus := status_new | status_existing | status_copy.

(** [customId?: boolean | EnumValues].  [EnumValues] is declared in
    models/properties; only the set of allowed keys matters here. *)
Inductive CustomId :=
| customId_bool (b : bool)
| customId_enum (allowed : list string).

(** Outcome of running a hook body: it returns or it throws. *)
Inductive HookResult (A : Type) :=
| returned (a : A)
| raised (e : Error).
Arguments returned {A} a.
Arguments raised {A} e.

Section Model.

(** [M] is the type of an entity's values ([EntityValues<M> = M]),
    [CMSAppContext] the ambient application context handed to hooks. *)
Context {M CMSAppContext : Type}.

(** [interface Entity<M>] *)
Record Entity := {
  id : string;
  reference : DocumentReference;
  values : M
}.

(** The data part of [EntitySchema] that hooks can read back through their
    props.  In TypeScript the props carry the whole schema, hooks included;
    that knot is cut here by handing the hooks the schema without its
    hooks. *)
Record SchemaInfo := {
  name : string;
  description : option string;
  customId : option CustomId;
  defaultValues : option M
}.

(** [interface EntitySaveProps<M>] *)
Record EntitySaveProps := {
  save_schema : SchemaInfo;
  save_collectionPath : string;
  save_id : option string;
  save_values : M;
  save_status : EntityStatus;
  save_context : CMSAppContext
}.

(** [interface EntityDeleteProps<M>] *)
Record EntityDeleteProps := {
  delete_schema : SchemaInfo;
  delete_collectionPath : string;
  delete_id : string;
  delete_entity : Entity;
  delete_context : CMSAppContext
}.

(** [interface EntitySchema<M>]: the data part and the five optional
    hooks.  [properties] and [views] only matter for rendering forms and
    are left out. *)
Record EntitySchema := {
  info : SchemaInfo;
  onSaveSuccess : option (EntitySaveProps -> HookResult unit);
  onSaveFailure : option (EntitySaveProps -> HookResult unit);
  onPreSave : option (EntitySaveProps -> HookResult M);
  onPreDelete : option (EntityDeleteProps -> HookResult unit);
  onDelete : option (EntityDeleteProps -> HookResult unit)
}.

End Model.

Arguments Entity : clear implicits.
Arguments SchemaInfo : clear implicits.
Arguments EntitySaveProps : clear implicits.
Arguments EntityDeleteProps : clear implicits.
Arguments EntitySchema : clear implicits.

(** ** Outside world: notifications, the store, the trace *)

(** Severity of a snackbar message, the [type] field of
    [snackbarContext.open]. *)
Inductive SnackbarMessageType := type_success | type_warning | type_error.

(** Argument of [snackbarContext.open].  [title] is optional; [body] is
    the field [message] of the source ([e?.message] in the error
    handlers), renamed because [message] is the field of [Error]. *)
Record SnackbarMessage := {
  type : SnackbarMessageType;
  title : option string;
  body : option string
}.

(** Modelled from the spec: the store collaborator contract, the document
    store behind the delete and save calls of models/firestore.  A delete
    by collection path and id answers with an error or with nothing; a
    save by collection path, id (or none, for the store to assign one) and
    values answers with an error or with the id of the written document. *)
Class StoreCollaborator (M Store : Type) := {
  store_delete : string -> string -> Store -> Store * option Error;
  store_save : string -> option string -> M -> Store -> Store * (Error + string)
}.

(** Modelled from the spec: the phases of the hook pipeline and the
    error taxonomy of the lifecycle engine. *)
Inductive Phase :=
| pre_save | post_save_success | post_save_failure | pre_delete | post_delete.

Inductive ErrorKind :=
| ValidationFailure
| HookFailure (ph : Phase)
| StoreFailure.

Record Failure := { kind : ErrorKind; cause : Error }.

Section Runtime.

Variables M Store : Type.

#[local] Abbreviation Entity := (Entity M).

(** What the code does to the outside, in the order it does it. *)
Inductive Event :=
| snackbar_open (n : SnackbarMessage)
| console_debug (label : string) (e : Entity)
| console_error_text (s : string)
| console_error (e : Error)
| store_delete_call (path ident : string)
| store_save_call (path : string) (ident : option string) (v : M)
| call_onClose
| call_onEntityDelete (path : string) (e : Entity)
| call_onMultipleEntitiesDelete (path : string) (es : list Entity).

(** The environment an operation runs in: the store and the trace of
    events so far, oldest first. *)
Record Env := {
  store : Store;
  trace : list Event
}.

Definition emit (ev : Event) (w : Env) : Env :=
  {| store := store w; trace := trace w ++ [ev] |}.

(** ** Promises

    A promise is fulfilled, rejected, or pending; a pending promise holds
    the code that runs when it is resumed, which changes the environment
    and leaves the promise in its next state. *)
#[warnings="-register-all"] Inductive Promise (A : Type) :=
| Fulfilled (a : A)
| Rejected (e : Error)
| Pending (k : Env -> Env * Promise A).
Arguments Fulfilled {A} a.
Arguments Rejected {A} e.
Arguments Pending {A} k.

(** Run a promise up to its next suspension point.  Calling an async
    function is the first [resume]: its body runs synchronously up to the
    first [await]. *)
Definition resume {A} (p : Promise A) (w : Env) : Env * Promise A :=
  match p with
  | Pending k => k w
  | _ => (w, p)
  end.

(** [xs.map(f)] for an async [f]: the calls are made in order, each
    running up to its first suspension. *)
Fixpoint launch_all {A} (ps : list (Promise A)) (w : Env)
  : Env * list (Promise A) :=
  match ps with
  | [] => (w, [])
  | p :: rest =>
      let (w1, p') := resume p w in
      let (w2, rest') := launch_all rest w1 in
      (w2, p' :: rest')
  end.

(** The event loop resumes the [i]-th promise of a pool. *)
Fixpoint resume_nth {A} (i : nat) (ps : list (Promise A)) (w : Env)
  : Env * list (Promise A) :=
  match ps, i with
  | [], _ => (w, [])
  | p :: rest, O => let (w', p') := resume p w in (w', p' :: rest)
  | p :: rest, S j => let (w', rest') := resume_nth j rest w in (w', p :: rest')
  end.

(** A schedule is the order in which the event loop resumes the pool. *)
Definition steps {A} (sched : list nat) (ps : list (Promise A)) (w : Env)
  : Env * list (Promise A) :=
  fold_left (fun st i => resume_nth i (snd st) (fst st)) sched (w, ps).

(** [Promise.all]: the values of the pool, in the order of the pool, once
    every promise of it is fulfilled. *)
Fixpoint fulfilled_values {A} (ps : list (Promise A)) : option (list A) :=
  match ps with
  | [] => Some []
  | Fulfilled a :: rest =>
      match fulfilled_values rest with
      | Some vs => Some (a :: vs)
      | None => None
      end
  | _ :: _ => None
  end.

End Runtime.

Arguments snackbar_open {M} n.
Arguments console_debug {M} label e.
Arguments console_error_text {M} s.
Arguments console_error {M} e.
Arguments store_delete_call {M} path ident.
Arguments store_save_call {M} path ident v.
Arguments call_onClose {M}.
Arguments call_onEntityDelete {M} path e.
Arguments call_onMultipleEntitiesDelete {M} path es.
Arguments Fulfilled {M Store A} a.
Arguments Rejected {M Store A} e.
Arguments Pending {M Store A} k.

(** ** Lifecycle engine (models/firestore) *)

Module Firestore.

Section Executor.

Variables M CMSAppContext Store : Type.
Context {SC : StoreCollaborator M Store}.

#[local] Abbreviation Entity := (Entity M).
#[local] Abbreviation EntitySchema := (EntitySchema M CMSAppContext).
#[local] Abbreviation Env := (Env M Store).
#[local] Abbreviation Promise := (Promise M Store).

(** Modelled from the spec: [OperationOutcome], the result of one save
    or delete.  A post-phase hook error is carried next to a [success]; a
    [failure] names its target by id when it has one.  [verdict] is the
    boolean the dialog is given. *)
Inductive OperationOutcome :=
| success (e : Entity) (hook_error : option Failure)
| failure (target : option string) (f : Failure).

Definition verdict (o : OperationOutcome) : bool :=
  match o with
  | success _ _ => true
  | failure _ _ => false
  end.

(** Modelled from the spec: the hook registry's invoke-if-present
    contract (the registry is not in the sources at hand).  [None] is an
    absent hook; an error raised by the hook body comes back as a
    [HookFailure] of the phase. *)
Definition invoke_hook {P A} (ph : Phase) (hook : option (P -> HookResult A))
  (props : P) : option (Failure + A) :=
  match hook with
  | None => None
  | Some h =>
      match h props with
      | returned a => Some (inr a)
      | raised e => Some (inl {| kind := HookFailure ph; cause := e |})
      end
  end.

(** Modelled from the spec: the props object
    [{schema, collectionPath, id, entity, context}] the delete hooks are
    invoked with. *)
Definition entityDeleteProps (schema : EntitySchema) (collectionPath : string)
  (entity : Entity) (context : CMSAppContext)
  : EntityDeleteProps M CMSAppContext :=
  {| delete_schema := info schema;
     delete_collectionPath := collectionPath;
     delete_id := id entity;
     delete_entity := entity;
     delete_context := context |}.


(** Modelled from the spec: the delete operation of the single-entity
    executor ([deleteEntity] of models/firestore is imported by the dialog
    but is not in the sources at hand).  Pre-delete hook, then the store
    delete by collection path and id, then the post-delete hook; the hook
    invocation and the store call are suspension points.  [finish] is what
    the caller does with the outcome at the moment it is known. *)
Definition executeDelete {R} (finish : OperationOutcome -> Env -> Env * R)
  (schema : EntitySchema) (collectionPath : string) (entity : Entity)
  (context : CMSAppContext) : Promise R :=
  let props := entityDeleteProps schema collectionPath entity context in
  let conclude (o : OperationOutcome) (w : Env) : Env * Promise R :=
    let (w', r) := finish o w in (w', Fulfilled r) in
  Pending (fun w =>
    match invoke_hook pre_delete (onPreDelete schema) props with
    | Some (inl f) => conclude (failure (Some (id entity)) f) w
    | _ =>
      (w, Pending (fun w =>
        let (s', answer) := store_delete collectionPath (id entity) (store w) in
        let w1 := emit (store_delete_call collectionPath (id entity))
                       {| store := s'; trace := trace w |} in
        (w1, Pending (fun w =>
          match answer with
          | Some err =>
              conclude (failure (Some (id entity))
                                {| kind := StoreFailure; cause := err |}) w
          | None =>
              match invoke_hook post_delete (onDelete schema) props with
              | Some (inl f) => conclude (success entity (Some f)) w
              | _ => conclude (success entity None) w
              end
          end))))
    end).

(** Modelled from the spec: [performDelete] of the operation contract,
    the delete operation returning its outcome. *)
Definition performDeleteOutcome (schema : EntitySchema)
  (collectionPath : string) (entity : Entity) (context : CMSAppContext)
  : Promise OperationOutcome :=
  executeDelete (fun o w => (w, o)) schema collectionPath entity context.

(** Modelled from the spec: the outcome reporter for a delete, which
    hands each outcome to the caller's handler for it. *)
Definition report_delete
  (onDeleteSuccess : Entity -> Env -> Env)
  (onDeleteFailure onPreDeleteHookError onDeleteSuccessHookError
     : Entity -> Error -> Env -> Env)
  (entity : Entity) (o : OperationOutcome) (w : Env) : Env :=
  match o with
  | success e None => onDeleteSuccess e w
  | success e (Some f) =>
      onDeleteSuccessHookError e (cause f) (onDeleteSuccess e w)
  | failure _ f =>
      match kind f with
      | HookFailure pre_delete => onPreDeleteHookError entity (cause f) w
      | _ => onDeleteFailure entity (cause f) w
      end
  end.

(** Modelled from the spec: [deleteEntity] of models/firestore, with the
    argument object the dialog passes to it.  It runs the delete
    operation, reports the outcome through the handlers and resolves to
    the verdict. *)
Definition deleteEntity (entity : Entity) (schema : EntitySchema)
  (collectionPath : string)
  (onDeleteSuccess : Entity -> Env -> Env)
  (onDeleteFailure onPreDeleteHookError onDeleteSuccessHookError
     : Entity -> Error -> Env -> Env)
  (context : CMSAppContext) : Promise bool :=
  executeDelete
    (fun o w =>
       (report_delete onDeleteSuccess onDeleteFailure onPreDeleteHookError
                      onDeleteSuccessHookError entity o w,
        verdict o))
    schema collectionPath entity context.



End Executor.

Arguments success {M} e hook_error.
Arguments failure {M} target f.

End Firestore.

(** ** The delete dialog (collection/internal/DeleteEntityDialog.tsx) *)

Module DeleteEntityDialog.

Section Component.

Variables M CMSAppContext Store : Type.

#[local] Abbreviation Entity := (Entity M).
#[local] Abbreviation EntitySchema := (EntitySchema M CMSAppContext).
#[local] Abbreviation Env := (Env M Store).
#[local] Abbreviation Promise := (Promise M Store).

(** [Entity<M> | Entity<M>[]] *)
Inductive EntityOrEntities :=
| one (e : Entity)
| many (es : list Entity).

Definition isArray (x : EntityOrEntities) : bool :=
  match x with
  | one _ => false
  | many _ => true
  end.

(** [DeleteEntityDialogProps<M>].  [onClose] is required; for the two
    optional callbacks the field says whether the parent supplied one, and
    a call of it is the event [call_onEntityDelete] or
    [call_onMultipleEntitiesDelete] with the arguments of the call. *)
Record DeleteEntityDialogProps := {
  entityOrEntitiesToDelete : option EntityOrEntities;
  collectionPath : string;
  schema : EntitySchema;
  open : bool;
  onEntityDelete : bool;
  onMultipleEntitiesDelete : bool
}.

(** The component's own state: [useState(false)] for [loading], the ref
    [entityOrEntitiesRef] and [useState<boolean>()] for
    [multipleEntities]. *)
Record DialogState := {
  loading : bool;
  entityOrEntitiesRef : option EntityOrEntities;
  multipleEntities : option bool
}.

Definition mounted : DialogState :=
  {| loading := false; entityOrEntitiesRef := None; multipleEntities := None |}.

(** Truthiness of a [boolean | undefined]. *)
Definition truthy (b : option bool) : bool :=
  match b with
  | Some true => true
  | _ => false
  end.

(** The component's state next to the environment it acts on. *)
Record World := {
  ui : DialogState;
  env : Env
}.

Definition setLoading (b : bool) (x : World) : World :=
  {| ui := {| loading := b;
              entityOrEntitiesRef := entityOrEntitiesRef (ui x);
              multipleEntities := multipleEntities (ui x) |};
     env := env x |}.

Definition effect (f : Env -> Env) (x : World) : World :=
  {| ui := ui x; env := f (env x) |}.

(** What the [Ok] handler leaves behind for the event loop: the promise
    it created and the entities its [then] callback closes over. *)
Inductive Job :=
| AllThen (entities : list Entity) (ps : list (Promise bool))
| OneThen (entity : Entity) (p : Promise bool).

(** What is on screen. *)
Inductive Content :=
| MultipleEntitiesDiv
| EntityPreview (entity : EntityOrEntities) (s : EntitySchema).

(** The rendered dialog: [dialogContent] is [None] when the
    [DialogContent] element is not rendered, and [Some content] when it is,
    [content] being [None] for an [undefined] child. *)
Record View := {
  view_open : bool;
  dialogTitle : string;
  dialogContent : option (option Content);
  circularProgress : bool;
  dialogActions : bool
}.

Section Body.

(** [import { deleteEntity } from "../../models/firestore"], the value of
    [useCMSAppContext()] and the props of this render. *)
Variable deleteEntity :
  Entity -> EntitySchema -> string ->
  (Entity -> Env -> Env) ->
  (Entity -> Error -> Env -> Env) ->
  (Entity -> Error -> Env -> Env) ->
  (Entity -> Error -> Env -> Env) ->
  CMSAppContext -> Promise bool.
Variable context : CMSAppContext.
Variable props : DeleteEntityDialogProps.

(** The effect that follows a change of [entityOrEntitiesToDelete]. *)
Definition useEffect (d : DialogState) : DialogState :=
  match entityOrEntitiesToDelete props with
  | Some given =>
      let current := match given with
                     | many [e] => one e
                     | _ => given
                     end in
      {| loading := loading d;
         entityOrEntitiesRef := Some current;
         multipleEntities := Some (isArray current) |}
  | None => d
  end.

(** [Object.is] on a [boolean | undefined], by which React compares the
    value given to [setMultipleEntities] with the current state. *)
Definition same_state (a b : option bool) : bool :=
  match a, b with
  | None, None => true
  | Some x, Some y => Bool.eqb x y
  | _, _ => false
  end.

(** The state as the render on screen has it, once a render with [props]
    and the effect after it are over, [d] being the state that render
    started from.  The render reads the ref
    ([const entityOrEntities = entityOrEntitiesRef.current]) before the
    effect writes it; another render, which reads the ref again, follows
    only when [setMultipleEntities] has changed the state.  Otherwise the
    render on screen, and the [Ok] handler it made, keep the ref's value
    from before the effect. *)
Definition rendered (d : DialogState) : DialogState :=
  let d' := useEffect d in
  if same_state (multipleEntities d') (multipleEntities d)
  then {| loading := loading d';
          entityOrEntitiesRef := entityOrEntitiesRef d;
          multipleEntities := multipleEntities d' |}
  else d'.

Definition handleCancel (x : World) : World :=
  effect (emit call_onClose) x.

Definition onDeleteSuccess (entity : Entity) (w : Env) : Env :=
  emit (console_debug "Deleted" entity) w.

Definition onDeleteFailure (entity : Entity) (e : Error) (w : Env) : Env :=
  let w1 := emit (snackbar_open
                    {| type := type_error;
                       title := Some (name (info (schema props)) ++ ": Error deleting");
                       body := Some (message e) |}) w in
  let w2 := emit (console_error_text "Error deleting entity") w1 in
  emit (console_error e) w2.

Definition onPreDeleteHookError (entity : Entity) (e : Error) (w : Env) : Env :=
  let w1 := emit (snackbar_open
                    {| type := type_error;
                       title := Some (name (info (schema props)) ++ ": Error before deleting");
                       body := Some (message e) |}) w in
  emit (console_error e) w1.

Definition onDeleteSuccessHookError (entity : Entity) (e : Error) (w : Env) : Env :=
  let w1 := emit (snackbar_open
                    {| type := type_error;
                       title := Some (name (info (schema props))
                                      ++ ": Error after deleting (entity is deleted)");
                       body := Some (message e) |}) w in
  emit (console_error e) w1.

Definition performDelete (entity : Entity) : Promise bool :=
  deleteEntity entity (schema props) (collectionPath props)
               onDeleteSuccess onDeleteFailure
               onPreDeleteHookError onDeleteSuccessHookError
               context.

(** The callback given to [Promise.all(...).then]. *)
Definition all_then (entities : list Entity) (results : list bool) (x : World)
  : World :=
  let x1 := setLoading false x in
  let x2 := if onMultipleEntitiesDelete props
            then effect (emit (call_onMultipleEntitiesDelete
                                 (collectionPath props) entities)) x1
            else x1 in
  let x3 :=
    if forallb (fun b => b) results then
      effect (emit (snackbar_open
                {| type := type_success;
                   title := None;
                   body := Some (name (info (schema props)) ++ ": multiple deleted") |})) x2
    else if existsb (fun b => b) results then
      effect (emit (snackbar_open
                {| type := type_warning;
                   title := None;
                   body := Some (name (info (schema props))
                     ++ ": Some of the entities have been deleted, but not all") |})) x2
    else
      effect (emit (snackbar_open
                {| type := type_error;
                   title := None;
                   body := Some (name (info (schema props)) ++ ": Error deleting entities") |})) x2
  in
  effect (emit call_onClose) x3.

(** The callback given to [performDelete(...).then]. *)
Definition one_then (entity : Entity) (success : bool) (x : World) : World :=
  let x1 := setLoading false x in
  if success then
    let x2 := if onEntityDelete props
              then effect (emit (call_onEntityDelete (collectionPath props) entity)) x1
              else x1 in
    let x3 := effect (emit (snackbar_open
                {| type := type_success;
                   title := None;
                   body := Some (name (info (schema props)) ++ " deleted") |})) x2 in
    effect (emit call_onClose) x3
  else x1.

(** Run the [then] callback of a job whose promise is fulfilled. *)
Definition settle (j : Job) (x : World) : World * option Job :=
  match j with
  | AllThen entities ps =>
      match fulfilled_values ps with
      | Some results => (all_then entities results x, None)
      | None => (x, Some j)
      end
  | OneThen entity p =>
      match p with
      | Fulfilled success => (one_then entity success x, None)
      | _ => (x, Some j)
      end
  end.

(** One turn of the event loop: resume the [i]-th operation of the job,
    then run the job's callback if that fulfilled its promise. *)
Definition tick (i : nat) (st : World * option Job) : World * option Job :=
  match st with
  | (x, None) => (x, None)
  | (x, Some (AllThen entities ps)) =>
      let (w, ps') := resume_nth i ps (env x) in
      settle (AllThen entities ps') {| ui := ui x; env := w |}
  | (x, Some (OneThen entity p)) =>
      let (w, p') := resume p (env x) in
      settle (OneThen entity p') {| ui := ui x; env := w |}
  end.

Definition run (sched : list nat) (st : World * option Job)
  : World * option Job :=
  fold_left (fun st i => tick i st) sched st.

(** The [Ok] button, as the handler one render made.  The state [ui x]
    is the state as that render has it: its [entityOrEntitiesRef] is
    [entityOrEntities], the value that render read from the ref, which is
    the value [rendered] gives and not always the ref's latest.  The two
    casts [as Entity<M>[]] and [as Entity<M>] are unchecked, and a state in
    which the ref's shape disagrees with [multipleEntities] has no
    behaviour here ([None]). *)
Definition handleOk (x : World) : option (World * option Job) :=
  match entityOrEntitiesRef (ui x) with
  | None => Some (x, None)
  | Some entityOrEntities =>
      let x1 := setLoading true x in
      if truthy (multipleEntities (ui x)) then
        match entityOrEntities with
        | many es =>
            let (w, ps) := launch_all (map performDelete es) (env x1) in
            Some (settle (AllThen es ps) {| ui := ui x1; env := w |})
        | one _ => None
        end
      else
        match entityOrEntities with
        | one e =>
            let (w, p) := resume (performDelete e) (env x1) in
            Some (settle (OneThen e p) {| ui := ui x1; env := w |})
        | many _ => None
        end
  end.

(** What one render returns, [d] being the state as that render has it
    (see [rendered]): [entityOrEntitiesRef d] is the value it read from
    the ref. *)
Definition render (d : DialogState) : View :=
  let entityOrEntities := entityOrEntitiesRef d in
  let content :=
    match entityOrEntities with
    | None => None
    | Some x =>
        if truthy (multipleEntities d) then Some MultipleEntitiesDiv
        else Some (EntityPreview x (schema props))
    end in
  let title :=
    if truthy (multipleEntities d)
    then name (info (schema props)) ++ ": Confirm multiple delete?"
    else "Would you like to delete this " ++ name (info (schema props)) ++ "?" in
  {| view_open := open props;
     dialogTitle := title;
     dialogContent := if truthy (multipleEntities d) then None else Some content;
     circularProgress := loading d;
     dialogActions := negb (loading d) |}.

End Body.

End Component.

End DeleteEntityDialog.

(** ** Observing a run *)

Section Observations.

Variables M CMSAppContext Store : Type.

#[local] Abbreviation Entity := (Entity M).
#[local] Abbreviation EntitySchema := (EntitySchema M CMSAppContext).
#[local] Abbreviation Env := (Env M Store).
#[local] Abbreviation Promise := (Promise M Store).
#[local] Abbreviation Event := (Event M).
#[local] Abbreviation World := (DeleteEntityDialog.World M Store).
#[local] Abbreviation Job := (DeleteEntityDialog.Job M Store).

(** The snackbar messages of a trace, in order. *)
Fixpoint notifications (t : list Event) : list SnackbarMessage :=
  match t with
  | [] => []
  | snackbar_open n :: rest => n :: notifications rest
  | _ :: rest => notifications rest
  end.

(** The store deletes of a trace: collection path and id of each. *)
Fixpoint store_delete_calls (t : list Event) : list (string * string) :=
  match t with
  | [] => []
  | store_delete_call path ident :: rest => (path, ident) :: store_delete_calls rest
  | _ :: rest => store_delete_calls rest
  end.

(** The store writes of a trace. *)
Fixpoint store_save_calls (t : list Event) : list (string * option string * M) :=
  match t with
  | [] => []
  | store_save_call path ident v :: rest => (path, ident, v) :: store_save_calls rest
  | _ :: rest => store_save_calls rest
  end.

(** The calls of [onMultipleEntitiesDelete] of a trace, with their
    arguments. *)
Fixpoint batch_callbacks (t : list Event) : list (string * list Entity) :=
  match t with
  | [] => []
  | call_onMultipleEntitiesDelete path es :: rest => (path, es) :: batch_callbacks rest
  | _ :: rest => batch_callbacks rest
  end.

(** The calls of [onEntityDelete] of a trace, with their arguments. *)
Fixpoint entity_callbacks (t : list Event) : list (string * Entity) :=
  match t with
  | [] => []
  | call_onEntityDelete path e :: rest => (path, e) :: entity_callbacks rest
  | _ :: rest => entity_callbacks rest
  end.

(** The number of calls of [onClose] of a trace. *)
Fixpoint close_calls (t : list Event) : nat :=
  match t with
  | [] => 0
  | call_onClose :: rest => S (close_calls rest)
  | _ :: rest => close_calls rest
  end.

(** Resume one promise [n] times. *)
Fixpoint resume_n {A} (n : nat) (p : Promise A) (w : Env) : Env * Promise A :=
  match n with
  | O => (w, p)
  | S m => let (w', p') := resume p w in resume_n m p' w'
  end.

(** A promise that is fulfilled after at most [k] resumptions, whatever
    the environment does to it. *)
Fixpoint settles_within {A} (k : nat) (p : Promise A) : Prop :=
  match k with
  | O => exists a, p = Fulfilled a
  | S k' => forall w, settles_within k' (snd (resume p w))
  end.

(** The targets whose delete succeeded: the entities paired with a
    [true] result, in the order of the input. *)
Fixpoint succeeded (es : list Entity) (results : list bool) : list Entity :=
  match es, results with
  | e :: es', true :: rs => e :: succeeded es' rs
  | _ :: es', false :: rs => succeeded es' rs
  | _, _ => []
  end.

(** The ref and [multipleEntities] agree: the state the effect leaves,
    in which the casts of the [Ok] handler are right. *)
Definition coherent (d : DeleteEntityDialog.DialogState M) : Prop :=
  match DeleteEntityDialog.entityOrEntitiesRef d with
  | None => True
  | Some x =>
      DeleteEntityDialog.multipleEntities d = Some (DeleteEntityDialog.isArray x)
  end.

(** The ref never holds an array of exactly one entity. *)
Definition normal (d : DeleteEntityDialog.DialogState M) : Prop :=
  forall e,
    DeleteEntityDialog.entityOrEntitiesRef d
    <> Some (DeleteEntityDialog.many [e]).

(** What holds of the component's state at every moment: the ref and
    [multipleEntities] agree, the ref never holds an array of exactly one
    entity, and [multipleEntities] is set only together with the ref. *)
Definition consistent (d : DeleteEntityDialog.DialogState M) : Prop :=
  coherent d
  /\ normal d
  /\ (DeleteEntityDialog.entityOrEntitiesRef d = None ->
      DeleteEntityDialog.multipleEntities d = None).

(** The number of successes among the results. *)
Definition successes (results : list bool) : nat :=
  count_occ bool_dec results true.

Section Dialog.

Variable deleteEntity :
  Entity -> EntitySchema -> string ->
  (Entity -> Env -> Env) ->
  (Entity -> Error -> Env -> Env) ->
  (Entity -> Error -> Env -> Env) ->
  (Entity -> Error -> Env -> Env) ->
  CMSAppContext -> Promise bool.
Variable context : CMSAppContext.
Variable props : DeleteEntityDialog.DeleteEntityDialogProps M CMSAppContext.

(** The snackbar message the batch callback opens, as a function of the
    results. *)
Definition batch_snackbar (results : list bool) : SnackbarMessage :=
  if forallb (fun b => b) results then
    {| type := type_success; title := None;
       body := Some (name (info (DeleteEntityDialog.schema props))
                     ++ ": multiple deleted") |}
  else if existsb (fun b => b) results then
    {| type := type_warning; title := None;
       body := Some (name (info (DeleteEntityDialog.schema props))
                     ++ ": Some of the entities have been deleted, but not all") |}
  else
    {| type := type_error; title := None;
       body := Some (name (info (DeleteEntityDialog.schema props))
                     ++ ": Error deleting entities") |}.

(** The delete operations of a batch on their own: started in the order
    of the entities and resumed in the order of the schedule, with no
    callback of the dialog attached. *)
Definition operations (es : list Entity) (sched : list nat) (w : Env)
  : Env * list (Promise bool) :=
  let (w1, ps) :=
    launch_all (map (DeleteEntityDialog.performDelete deleteEntity context props) es) w in
  steps sched ps w1.

(** Press [Ok], then let the event loop take the turns of [sched]. *)
Definition ok_then_run (sched : list nat) (x : World)
  : option (World * option Job) :=
  match DeleteEntityDialog.handleOk deleteEntity context props x with
  | Some st => Some (DeleteEntityDialog.run props sched st)
  | None => None
  end.

End Dialog.

End Observations.

Arguments notifications {M} t.
Arguments store_delete_calls {M} t.
Arguments store_save_calls {M} t.
Arguments batch_callbacks {M} t.
Arguments entity_callbacks {M} t.
Arguments close_calls {M} t.
Arguments succeeded {M} es results.

(** ** A concrete store and sample data *)

Module Sample.

(** Entity values as field and value pairs. *)
Definition Values := list (string * string).

(** An in-memory store: the documents it holds, by collection path and
    id, and the ids it refuses to touch. *)
Record MemStore := {
  docs : list (string * string);
  refused : list string
}.

Definition same_doc (a b : string * string) : bool :=
  (fst a =? fst b) && (snd a =? snd b).

Definition mem_delete (path ident : string) (s : MemStore)
  : MemStore * option Error :=
  if existsb (String.eqb ident) (refused s) then
    (s, Some {| message := "permission denied" |})
  else if existsb (same_doc (path, ident)) (docs s) then
    ({| docs := filter (fun d => negb (same_doc (path, ident) d)) (docs s);
        refused := refused s |}, None)
  else (s, Some {| message := "not found" |}).

Definition mem_save (path : string) (target : option string) (v : Values)
  (s : MemStore) : MemStore * (Error + string) :=
  let ident := match target with
               | Some i => i
               | None => String.concat "" ("auto" :: repeat "+" (List.length (docs s)))
               end in
  if existsb (String.eqb ident) (refused s) then
    (s, inl {| message := "permission denied" |})
  else
    ({| docs := (path, ident) :: docs s; refused := refused s |}, inr ident).

#[export] Instance MemStore_collaborator : StoreCollaborator Values MemStore := {
  store_delete := mem_delete;
  store_save := mem_save
}.

Definition product (ident : string) : Entity Values :=
  {| id := ident;
     reference := {| ref_path := "products"; ref_id := ident |};
     values := [("name", ident)] |}.

Definition Product_info (policy : option CustomId) : SchemaInfo Values :=
  {| name := "Product";
     description := None;
     customId := policy;
     defaultValues := None |}.

(** Schema "Product" without hooks. *)
Definition Product : EntitySchema Values unit :=
  {| info := Product_info None;
     onSaveSuccess := None; onSaveFailure := None; onPreSave := None;
     onPreDelete := None; onDelete := None |}.

(** "Product" with a pre-delete hook that always throws. *)
Definition Product_guarded : EntitySchema Values unit :=
  {| info := Product_info None;
     onSaveSuccess := None; onSaveFailure := None; onPreSave := None;
     onPreDelete := Some (fun _ => raised {| message := "locked" |});
     onDelete := None |}.

(** "Product" with a post-delete hook that always throws. *)
Definition Product_audited : EntitySchema Values unit :=
  {| info := Product_info None;
     onSaveSuccess := None; onSaveFailure := None; onPreSave := None;
     onPreDelete := None;
     onDelete := Some (fun _ => raised {| message := "audit log down" |}) |}.



(** A store holding products 1, 2 and 3 that refuses to touch the ids in
    [locked]. *)
Definition shop (locked : list string) : Env Values MemStore :=
  {| store := {| docs := [("products", "1"); ("products", "2"); ("products", "3")];
                 refused := locked |};
     trace := [] |}.

(** Props of a dialog over "products", with both callbacks supplied. *)
Definition dialog_props (s : EntitySchema Values unit)
  (target : option (DeleteEntityDialog.EntityOrEntities Values))
  : DeleteEntityDialog.DeleteEntityDialogProps Values unit :=
  {| DeleteEntityDialog.entityOrEntitiesToDelete := target;
     DeleteEntityDialog.collectionPath := "products";
     DeleteEntityDialog.schema := s;
     DeleteEntityDialog.open := true;
     DeleteEntityDialog.onEntityDelete := true;
     DeleteEntityDialog.onMultipleEntitiesDelete := true |}.

(** The dialog as it stands once mounted with [target] and its effect has
    run, over the environment [w]. *)
Definition opened (s : EntitySchema Values unit)
  (target : option (DeleteEntityDialog.EntityOrEntities Values))
  (w : Env Values MemStore) : DeleteEntityDialog.World Values MemStore :=
  {| DeleteEntityDialog.ui :=
       DeleteEntityDialog.useEffect (dialog_props s target)
         (DeleteEntityDialog.mounted Values);
     DeleteEntityDialog.env := w |}.

End Sample.

(** ** The sample shop *)

Module Scenario.

Import Sample DeleteEntityDialog.

(** Products 1, 2 and 3, the batch dialog opened on them, and the single
    dialog opened on product 2. *)
Definition three : list (Entity Values) :=
  [product "1"; product "2"; product "3"].

Definition batch_props := dialog_props Product (Some (many three)).

Definition batch_dialog (locked : list string) : World Values MemStore :=
  opened Product (Some (many three)) (shop locked).

Definition single_props := dialog_props Product (Some (many [product "2"])).

Definition single_dialog (locked : list string) : World Values MemStore :=
  opened Product (Some (many [product "2"])) (shop locked).

(** The world a run ends in ([fallback] if [Ok] has no behaviour). *)
Definition world_of (r : option (World Values MemStore * option (Job Values MemStore)))
  (fallback : World Values MemStore) : World Values MemStore :=
  match r with
  | Some (x, _) => x
  | None => fallback
  end.

(** Two rounds over three operations. *)
Definition two_rounds : list nat := [0; 1; 2; 0; 1; 2].

Definition refusal : SnackbarMessage :=
  {| type := type_error;
     title := Some "Product: Error deleting";
     body := Some "permission denied" |}.

(** [Ok] on the batch dialog with the engine behind it and two rounds of
    the event loop, and the world that ends in. *)
Definition run_batch (locked : list string) :=
  ok_then_run (@Firestore.deleteEntity Values unit MemStore _) tt
              batch_props two_rounds (batch_dialog locked).

Definition batch_end (locked : list string) : World Values MemStore :=
  world_of (run_batch locked) (batch_dialog locked).

(** The same for the single dialog and two turns. *)
Definition run_single (locked : list string) :=
  ok_then_run (@Firestore.deleteEntity Values unit MemStore _) tt
              single_props [0; 0] (single_dialog locked).

Definition single_end (locked : list string) : World Values MemStore :=
  world_of (run_single locked) (single_dialog locked).

(** The one delete of the single dialog, resumed [n] times. *)
Definition single_operation (locked : list string) (n : nat) :=
  resume_n n
    (performDelete (@Firestore.deleteEntity Values unit MemStore _) tt
                   single_props (product "2"))
    (shop locked).

(** The props a delete hook is called with for [entity]. *)
Definition called_with (s : EntitySchema Values unit) (entity : Entity Values)
  : EntityDeleteProps Values unit :=
  Firestore.entityDeleteProps s "products" entity tt.

(** A [deleteEntity] that is offline for product 2: the promise of that
    delete is rejected when it is resumed after the call, the promise of
    any other delete is fulfilled with [true] there. *)
Definition offline_for_2 (entity : Entity Values) (s : EntitySchema Values unit)
  (path : string)
  (onSuccess : Entity Values -> Env Values MemStore -> Env Values MemStore)
  (onFailure onPreError onPostError
     : Entity Values -> Error -> Env Values MemStore -> Env Values MemStore)
  (context : unit) : Promise Values MemStore bool :=
  Pending (fun w =>
    (w, Pending (fun w =>
          (w, if id entity =? "2"
              then Rejected {| message := "offline" |}
              else Fulfilled true)))).

(** The state of a dialog that was opened on product 1 before. *)
Definition after_product_1 : DialogState Values :=
  useEffect (dialog_props Product (Some (one (product "1")))) (mounted Values).

(** The dialog opened on an empty array, and on product 2 given as an
    entity and not as an array. *)
Definition empty_props := dialog_props Product (Some (many [])).

Definition direct_props := dialog_props Product (Some (one (product "2"))).

End Scenario.

(** * Properties *)

Import DeleteEntityDialog.
#[local] Open Scope list_scope.

(** ** Traces *)

(** A projection of the trace goes through a concatenation. *)
Ltac trace_projection a :=
  let ev := fresh "ev" in
  let IH := fresh "IH" in
  induction a as [|ev a IH]; simpl; [reflexivity|];
  destruct ev; simpl; rewrite IH; reflexivity.

Section TraceFacts.

Variable M : Type.

Lemma notifications_app (a b : list (Event M)) :
  notifications (a ++ b) = notifications a ++ notifications b.
Proof. trace_projection a. Qed.

Lemma store_delete_calls_app (a b : list (Event M)) :
  store_delete_calls (a ++ b) = store_delete_calls a ++ store_delete_calls b.
Proof. trace_projection a. Qed.

Lemma store_save_calls_app (a b : list (Event M)) :
  store_save_calls (a ++ b) = store_save_calls a ++ store_save_calls b.
Proof. trace_projection a. Qed.

Lemma batch_callbacks_app (a b : list (Event M)) :
  batch_callbacks (a ++ b) = batch_callbacks a ++ batch_callbacks b.
Proof. trace_projection a. Qed.

Lemma entity_callbacks_app (a b : list (Event M)) :
  entity_callbacks (a ++ b) = entity_callbacks a ++ entity_callbacks b.
Proof. trace_projection a. Qed.

Lemma close_calls_app (a b : list (Event M)) :
  close_calls (a ++ b) = close_calls a + close_calls b.
Proof. trace_projection a. Qed.

End TraceFacts.

(** ** Results of a batch *)

Lemma successes_le (rs : list bool) : successes rs <= List.length rs.
Proof.
  unfold successes. induction rs as [|[] rs IH]; simpl; lia.
Qed.

Lemma every_iff_all_succeeded (rs : list bool) :
  forallb (fun b => b) rs = true <-> successes rs = List.length rs.
Proof.
  unfold successes. induction rs as [|b rs IH]; simpl.
  - split; reflexivity.
  - pose proof (successes_le rs) as Hle. unfold successes in Hle.
    destruct b; simpl.
    + rewrite IH. lia.
    + split; [discriminate | lia].
Qed.

Lemma some_iff_one_succeeded (rs : list bool) :
  existsb (fun b => b) rs = true <-> 0 < successes rs.
Proof.
  unfold successes. induction rs as [|b rs IH]; simpl.
  - split; [discriminate | lia].
  - destruct b; simpl.
    + split; [lia | reflexivity].
    + exact IH.
Qed.

Lemma succeeded_all (M : Type) (es : list (Entity M)) (rs : list bool) :
  List.length rs = List.length es ->
  forallb (fun b => b) rs = true -> succeeded es rs = es.
Proof.
  revert rs. induction es as [|e es IH]; intros [|r rs] Hlen Hall;
    simpl in *; try reflexivity; try discriminate.
  destruct r; simpl in Hall; [|discriminate].
  f_equal. apply IH; [lia | assumption].
Qed.

(** ** The event loop *)

Section Scheduling.

Variables M Store : Type.

#[local] Abbreviation Env := (Env M Store).
#[local] Abbreviation Promise := (Promise M Store).

Lemma resume_nth_length A (i : nat) (ps : list (Promise A)) (w : Env) :
  List.length (snd (resume_nth i ps w)) = List.length ps.
Proof.
  revert i w. induction ps as [|p ps IH]; intros [|j] w; simpl;
    try reflexivity.
  - destruct (resume p w); reflexivity.
  - specialize (IH j w). destruct (resume_nth j ps w). simpl in *. lia.
Qed.

Lemma steps_cons A (i : nat) (sched : list nat) (ps : list (Promise A)) (w : Env) :
  steps (i :: sched) ps w
  = steps sched (snd (resume_nth i ps w)) (fst (resume_nth i ps w)).
Proof.
  unfold steps. simpl. destruct (resume_nth i ps w); reflexivity.
Qed.

Lemma steps_length A (sched : list nat) (ps : list (Promise A)) (w : Env) :
  List.length (snd (steps sched ps w)) = List.length ps.
Proof.
  revert ps w. induction sched as [|i sched IH]; intros ps w.
  - reflexivity.
  - rewrite steps_cons, IH. apply resume_nth_length.
Qed.

Lemma launch_all_length A (ps : list (Promise A)) (w : Env) :
  List.length (snd (launch_all ps w)) = List.length ps.
Proof.
  revert w. induction ps as [|p ps IH]; intros w; simpl; [reflexivity|].
  destruct (resume p w) as [w1 p']. specialize (IH w1).
  destruct (launch_all ps w1). simpl in *. lia.
Qed.

Lemma fulfilled_values_length A (ps : list (Promise A)) (vs : list A) :
  fulfilled_values ps = Some vs -> List.length vs = List.length ps.
Proof.
  revert vs. induction ps as [|p ps IH]; intros vs H; simpl in H.
  - injection H as <-. reflexivity.
  - destruct p; try discriminate.
    destruct (fulfilled_values ps) as [vs'|]; [|discriminate].
    injection H as <-. simpl. f_equal. apply IH. reflexivity.
Qed.

Lemma fulfilled_values_map A (ps : list (Promise A)) (vs : list A) :
  fulfilled_values ps = Some vs <-> ps = map Fulfilled vs.
Proof.
  revert vs. induction ps as [|p ps IH]; intros vs; simpl.
  - split.
    + intros H. injection H as <-. reflexivity.
    + destruct vs; [reflexivity | discriminate].
  - split.
    + destruct p; try discriminate.
      destruct (fulfilled_values ps) as [vs'|] eqn:E; [|discriminate].
      intros H. injection H as <-. simpl. f_equal. apply IH. reflexivity.
    + destruct vs as [|v vs]; [discriminate|]. simpl.
      intros H. injection H as -> Hps.
      apply IH in Hps. rewrite Hps. reflexivity.
Qed.

(** A pool whose promises are all fulfilled no longer moves. *)
Lemma resume_nth_fulfilled A (i : nat) (ps : list (Promise A)) (vs : list A) (w : Env) :
  fulfilled_values ps = Some vs -> resume_nth i ps w = (w, ps).
Proof.
  revert i vs. induction ps as [|p ps IH]; intros i vs H; simpl in *.
  - destruct i; reflexivity.
  - destruct p; try discriminate.
    destruct (fulfilled_values ps) as [vs'|] eqn:E; [|discriminate].
    destruct i as [|j]; simpl; [reflexivity|].
    rewrite (IH j vs' eq_refl). reflexivity.
Qed.

Lemma steps_fulfilled A (sched : list nat) (ps : list (Promise A)) (vs : list A) (w : Env) :
  fulfilled_values ps = Some vs -> steps sched ps w = (w, ps).
Proof.
  intros H. induction sched as [|i sched IH]; [reflexivity|].
  rewrite steps_cons, (resume_nth_fulfilled i ps w H). exact IH.
Qed.

Lemma steps_app A (a b : list nat) (ps : list (Promise A)) (w : Env) :
  steps (a ++ b) ps w = steps b (snd (steps a ps w)) (fst (steps a ps w)).
Proof.
  unfold steps. rewrite fold_left_app.
  destruct (fold_left _ a (w, ps)); reflexivity.
Qed.

(** Resuming every promise of the pool once, in order, is what starting
    them in order does. *)
Lemma steps_round A (ps : list (Promise A)) (w : Env) :
  steps (seq 0 (List.length ps)) ps w = launch_all ps w.
Proof.
  enough (G : forall (pre : list (Promise A)) ps w,
             steps (seq (List.length pre) (List.length ps)) (pre ++ ps) w
             = (fst (launch_all ps w), pre ++ snd (launch_all ps w))).
  { specialize (G [] ps w). simpl in G. rewrite G.
    destruct (launch_all ps w); reflexivity. }
  clear ps w. intros pre ps. revert pre.
  induction ps as [|p ps IH]; intros pre w.
  - simpl. reflexivity.
  - simpl List.length. simpl seq. rewrite steps_cons.
    assert (R : resume_nth (List.length pre) (pre ++ p :: ps) w
                = (fst (resume p w), pre ++ snd (resume p w) :: ps)).
    { clear IH. induction pre as [|q pre IHp]; simpl.
      - destruct (resume p w); reflexivity.
      - rewrite IHp. reflexivity. }
    rewrite R. simpl fst. simpl snd.
    specialize (IH (pre ++ [snd (resume p w)]) (fst (resume p w))).
    rewrite length_app in IH. simpl in IH.
    replace (List.length pre + 1) with (S (List.length pre)) in IH by lia.
    rewrite <- app_assoc in IH. simpl in IH. rewrite IH.
    simpl. destruct (resume p w) as [w1 p']. simpl.
    destruct (launch_all ps w1). simpl. rewrite <- app_assoc. reflexivity.
Qed.

(** A fulfilled promise stays as it is, and so does a rejected one. *)
Lemma resume_n_fulfilled A (a : A) (n : nat) (w : Env) :
  resume_n n (Fulfilled a) w = (w, Fulfilled a).
Proof.
  revert w. induction n as [|n IH]; intros w; simpl; [reflexivity | apply IH].
Qed.

Lemma resume_n_rejected A (err : Error) (n : nat) (w : Env) :
  resume_n n (Rejected err : Promise A) w = (w, Rejected err).
Proof.
  revert w. induction n as [|n IH]; intros w; simpl; [reflexivity | apply IH].
Qed.

Lemma settles_within_mono A (k : nat) (p : Promise A) :
  settles_within k p -> settles_within (S k) p.
Proof.
  revert p. induction k as [|k IH]; intros p H.
  - destruct H as [a ->]. intros w. simpl. exists a. reflexivity.
  - intros w. apply IH. apply H.
Qed.

Lemma launch_all_settles A (k : nat) (ps : list (Promise A)) (w : Env) :
  Forall (settles_within (S k)) ps ->
  Forall (settles_within k) (snd (launch_all ps w)).
Proof.
  revert w. induction ps as [|p ps IH]; intros w H; simpl.
  - constructor.
  - inversion H as [|? ? Hp Hps]; subst.
    specialize (Hp w). destruct (resume p w) as [w1 p'].
    specialize (IH w1 Hps). destruct (launch_all ps w1). simpl in *.
    constructor; assumption.
Qed.

Lemma settled_pool_fulfilled A (ps : list (Promise A)) :
  Forall (settles_within 0) ps -> exists vs, fulfilled_values ps = Some vs.
Proof.
  induction 1 as [|p ps [a ->] _ [vs IH]]; simpl.
  - exists []. reflexivity.
  - rewrite IH. exists (a :: vs). reflexivity.
Qed.

End Scheduling.

(** ** The dialog *)

Section DialogFacts.

Variables M CMSAppContext Store : Type.

#[local] Abbreviation Entity' := (Entity M).
#[local] Abbreviation Env' := (Env M Store).
#[local] Abbreviation Promise' := (Promise M Store).
#[local] Abbreviation World' := (World M Store).

Variable deleteEntity :
  Entity' -> EntitySchema M CMSAppContext -> string ->
  (Entity' -> Env' -> Env') ->
  (Entity' -> Error -> Env' -> Env') ->
  (Entity' -> Error -> Env' -> Env') ->
  (Entity' -> Error -> Env' -> Env') ->
  CMSAppContext -> Promise' bool.
Variable context : CMSAppContext.
Variable props : DeleteEntityDialogProps M CMSAppContext.

Lemma run_cons (i : nat) (sched : list nat) (st : World' * option (Job M Store)) :
  run props (i :: sched) st = run props sched (tick props i st).
Proof. reflexivity. Qed.

Lemma run_settled (sched : list nat) (x : World') :
  run props sched (x, None) = (x, None).
Proof.
  induction sched as [|i sched IH]; [reflexivity | exact IH].
Qed.

(** What the batch callback does: it resets [loading], calls the batch
    callback prop with the entities it closed over, opens one snackbar and
    closes the dialog; the store is not touched. *)
Lemma all_then_effect (es : list Entity') (results : list bool) (x : World') :
  loading (ui (all_then props es results x)) = false
  /\ entityOrEntitiesRef (ui (all_then props es results x)) = entityOrEntitiesRef (ui x)
  /\ multipleEntities (ui (all_then props es results x)) = multipleEntities (ui x)
  /\ store (env (all_then props es results x)) = store (env x)
  /\ trace (env (all_then props es results x))
     = trace (env x)
       ++ (if onMultipleEntitiesDelete props
           then [call_onMultipleEntitiesDelete (collectionPath props) es] else [])
       ++ [snackbar_open (batch_snackbar props results); call_onClose].
Proof.
  unfold all_then, batch_snackbar.
  destruct (onMultipleEntitiesDelete props);
    destruct (forallb (fun b => b) results);
    destruct (existsb (fun b => b) results);
    simpl; rewrite <- ?app_assoc; simpl; repeat split; reflexivity.
Qed.

(** The event loop on a batch job: either some operation is still
    unresolved and nothing but the operations has run, or the callback ran
    once, on the environment in which the last operation resolved. *)
Lemma run_all_then (sched : list nat) :
  forall (es : list Entity') (ps : list (Promise' bool)) (x : World'),
    (fulfilled_values (snd (steps sched ps (env x))) = None
     /\ run props sched (settle props (AllThen es ps) x)
        = ({| ui := ui x; env := fst (steps sched ps (env x)) |},
           Some (AllThen es (snd (steps sched ps (env x))))))
    \/ (exists pre post results,
          sched = pre ++ post
          /\ fulfilled_values (snd (steps pre ps (env x))) = Some results
          /\ run props sched (settle props (AllThen es ps) x)
             = (all_then props es results
                  {| ui := ui x; env := fst (steps pre ps (env x)) |}, None)).
Proof.
  induction sched as [|i sched IH]; intros es ps x.
  - simpl. destruct (fulfilled_values ps) as [results|] eqn:E.
    + right. exists [], [], results. simpl.
      destruct x; repeat split; simpl; auto.
    + left. simpl. destruct x; split; simpl; auto.
  - simpl settle. destruct (fulfilled_values ps) as [results|] eqn:E.
    + right. exists [], (i :: sched), results. simpl steps. simpl snd.
      rewrite run_settled. destruct x; repeat split; simpl; auto.
    + rewrite steps_cons, run_cons. unfold tick.
      destruct (resume_nth i ps (env x)) as [w ps'] eqn:R. simpl fst. simpl snd.
      destruct (IH es ps' {| ui := ui x; env := w |}) as [[Hp Hr] | (pre & post & results & Hs & Hf & Hr)].
      * left. simpl in Hp, Hr. split; assumption.
      * right. exists (i :: pre), post, results. rewrite steps_cons, R.
        simpl in Hf, Hr |- *. subst sched. repeat split; assumption.
Qed.

(** The same for the job of a single delete: the schedule only counts,
    every turn resumes the one operation. *)
Lemma run_one_then (sched : list nat) :
  forall (e : Entity') (p : Promise' bool) (x : World'),
    ((forall b, snd (resume_n (List.length sched) p (env x)) <> Fulfilled b)
     /\ run props sched (settle props (OneThen e p) x)
        = ({| ui := ui x; env := fst (resume_n (List.length sched) p (env x)) |},
           Some (OneThen e (snd (resume_n (List.length sched) p (env x))))))
    \/ (exists m b,
          m <= List.length sched
          /\ snd (resume_n m p (env x)) = Fulfilled b
          /\ run props sched (settle props (OneThen e p) x)
             = (one_then props e b
                  {| ui := ui x; env := fst (resume_n m p (env x)) |}, None)).
Proof.
  induction sched as [|i sched IH]; intros e p x.
  - simpl. destruct p as [b| |k].
    + right. exists 0, b. simpl. destruct x; repeat split; lia.
    + left. destruct x; split; [discriminate | reflexivity].
    + left. destruct x; split; [discriminate | reflexivity].
  - destruct p as [b|err|k].
    + right. exists 0, b. simpl settle. rewrite run_settled.
      destruct x; repeat split; simpl; lia.
    + left. clear IH. rewrite resume_n_rejected. simpl fst. simpl snd. split.
      * discriminate.
      * assert (R : forall s (y : World'),
                   run props s (y, Some (OneThen e (Rejected err)))
                   = (y, Some (OneThen e (Rejected err)))).
        { induction s as [|j s IHs]; intros y; [reflexivity|].
          rewrite run_cons. simpl. destruct y; simpl. apply IHs. }
        simpl settle. rewrite R. destruct x; reflexivity.
    + simpl settle. rewrite run_cons. unfold tick.
      simpl List.length. simpl resume_n. simpl resume.
      destruct (k (env x)) as [w p'] eqn:K.
      destruct (IH e p' {| ui := ui x; env := w |}) as [[Hp Hr] | (m & b & Hm & Hf & Hr)].
      * left. simpl in Hp, Hr. split; assumption.
      * right. exists (S m), b. simpl resume_n. rewrite K.
        simpl in Hf, Hr. repeat split; [lia | assumption | assumption].
Qed.

(** The dialog only ever is in a coherent state, and in a coherent state
    [Ok] has a behaviour. *)
Lemma mounted_coherent : coherent (mounted M).
Proof. exact I. Qed.

Lemma useEffect_coherent (d : DialogState M) :
  coherent d -> coherent (useEffect props d).
Proof.
  unfold coherent, useEffect. intros H.
  destruct (entityOrEntitiesToDelete props) as [given|]; [|exact H].
  simpl. reflexivity.
Qed.

(** The component's state is consistent when it mounts and stays so
    through every effect. *)
Lemma mounted_consistent : consistent (mounted M).
Proof.
  split; [exact I|]. split; [intros e; discriminate | reflexivity].
Qed.

Lemma useEffect_consistent (d : DialogState M) :
  consistent d -> consistent (useEffect props d).
Proof.
  intros (Hco & Hno & Hset). unfold useEffect.
  destruct (entityOrEntitiesToDelete props) as [given|];
    [| split; [exact Hco | split; [exact Hno | exact Hset]]].
  split; [unfold coherent; reflexivity|]. split.
  - intros e0. simpl. destruct given as [e | [|e [|e' es]]]; discriminate.
  - simpl. discriminate.
Qed.

(** The render on screen has the state the effect left when the effect
    changed [multipleEntities], and the state from before the effect when
    it did not. *)
Lemma same_state_eq (a b : option bool) : same_state a b = true <-> a = b.
Proof.
  destruct a as [[]|], b as [[]|]; simpl; split; intros H;
    try reflexivity; try discriminate.
Qed.

Lemma rendered_changed (d : DialogState M) :
  multipleEntities (useEffect props d) <> multipleEntities d ->
  rendered props d = useEffect props d.
Proof.
  intros H. unfold rendered.
  destruct (same_state _ _) eqn:E; [|reflexivity].
  apply same_state_eq in E. contradiction.
Qed.

Lemma rendered_unchanged (d : DialogState M) :
  multipleEntities (useEffect props d) = multipleEntities d ->
  rendered props d = d.
Proof.
  intros H. unfold rendered.
  destruct (same_state _ _) eqn:E.
  - rewrite H. destruct d. unfold useEffect.
    destruct (entityOrEntitiesToDelete props); reflexivity.
  - rewrite H in E.
    assert (E' : same_state (multipleEntities d) (multipleEntities d) = true)
      by (apply same_state_eq; reflexivity).
    rewrite E' in E. discriminate.
Qed.

(** On mounting, the render on screen has the state the effect left. *)
Lemma rendered_on_mount : rendered props (mounted M) = useEffect props (mounted M).
Proof.
  unfold rendered, useEffect.
  destruct (entityOrEntitiesToDelete props); reflexivity.
Qed.

Lemma handleOk_defined (x : World') :
  coherent (ui x) ->
  exists st, handleOk deleteEntity context props x = Some st.
Proof.
  unfold coherent, handleOk. intros H.
  destruct (entityOrEntitiesRef (ui x)) as [[e|es]|]; [| |eexists; reflexivity];
    rewrite H; simpl.
  - destruct (resume _ _). eexists; reflexivity.
  - destruct (launch_all _ _). eexists; reflexivity.
Qed.

(** What the single-delete callback does. *)
Lemma one_then_effect (e : Entity') (success : bool) (x : World') :
  loading (ui (one_then props e success x)) = false
  /\ entityOrEntitiesRef (ui (one_then props e success x)) = entityOrEntitiesRef (ui x)
  /\ multipleEntities (ui (one_then props e success x)) = multipleEntities (ui x)
  /\ store (env (one_then props e success x)) = store (env x)
  /\ trace (env (one_then props e success x))
     = trace (env x)
       ++ (if success then
             (if onEntityDelete props
              then [call_onEntityDelete (collectionPath props) e] else [])
             ++ [snackbar_open
                   {| type := type_success; title := None;
                      body := Some (name (info (schema props)) ++ " deleted")%string |};
                 call_onClose]
           else []).
Proof.
  unfold one_then.
  destruct success; destruct (onEntityDelete props);
    simpl; rewrite <- ?app_assoc, ?app_nil_r; simpl; repeat split; reflexivity.
Qed.

Lemma callbacks_coherent (es : list Entity') (results : list bool)
  (e : Entity') (success : bool) (x : World') :
  coherent (ui x) ->
  coherent (ui (all_then props es results x))
  /\ coherent (ui (one_then props e success x)).
Proof.
  intros H.
  destruct (all_then_effect es results x) as (_ & Hr & Hm & _).
  destruct (one_then_effect e success x) as (_ & Hr' & Hm' & _).
  unfold coherent in *. rewrite Hr, Hm, Hr', Hm'. split; exact H.
Qed.

Lemma one_then_failure (e : Entity') (x : World') :
  env (one_then props e false x) = env x.
Proof. reflexivity. Qed.

Lemma operations_unfold (es : list Entity') (sched : list nat) (w : Env') :
  operations deleteEntity context props es sched w
  = steps sched
      (snd (launch_all (map (performDelete deleteEntity context props) es) w))
      (fst (launch_all (map (performDelete deleteEntity context props) es) w)).
Proof.
  unfold operations. destruct (launch_all _ w). reflexivity.
Qed.

Lemma operations_length (es : list Entity') (sched : list nat) (w : Env') :
  List.length (snd (operations deleteEntity context props es sched w))
  = List.length es.
Proof.
  rewrite operations_unfold, steps_length, launch_all_length, length_map.
  reflexivity.
Qed.

(** [Ok] on a batch: the job either still waits for an operation, or its
    callback has run once on the environment in which all operations had
    resolved. *)
Lemma ok_then_run_batch (x : World') (es : list Entity') (sched : list nat) :
  entityOrEntitiesRef (ui x) = Some (many es) ->
  multipleEntities (ui x) = Some true ->
  (fulfilled_values (snd (operations deleteEntity context props es sched (env x))) = None
   /\ ok_then_run deleteEntity context props sched x
      = Some ({| ui := ui (setLoading true x);
                 env := fst (operations deleteEntity context props es sched (env x)) |},
              Some (AllThen es
                      (snd (operations deleteEntity context props es sched (env x))))))
  \/ (exists pre post results,
        sched = pre ++ post
        /\ fulfilled_values
             (snd (operations deleteEntity context props es pre (env x))) = Some results
        /\ ok_then_run deleteEntity context props sched x
           = Some (all_then props es results
                     {| ui := ui (setLoading true x);
                        env := fst (operations deleteEntity context props es pre (env x)) |},
                   None)).
Proof.
  intros Href Hmulti.
  unfold ok_then_run, handleOk. rewrite Href, Hmulti. simpl truthy. cbv iota.
  simpl env.
  destruct (launch_all (map (performDelete deleteEntity context props) es) (env x))
    as [w0 ps0] eqn:L.
  destruct (run_all_then sched es ps0 {| ui := ui (setLoading true x); env := w0 |})
    as [[Hp Hr] | (pre & post & results & Hs & Hf & Hr)].
  - left. rewrite operations_unfold, L. simpl in Hp, Hr |- *.
    split; [assumption | rewrite Hr; reflexivity].
  - right. exists pre, post, results. rewrite operations_unfold, L.
    simpl in Hf, Hr |- *. repeat split; [assumption | assumption | rewrite Hr; reflexivity].
Qed.

(** [Ok] on a single entity. *)
Lemma ok_then_run_single (x : World') (e : Entity') (sched : list nat) :
  entityOrEntitiesRef (ui x) = Some (one e) ->
  truthy (multipleEntities (ui x)) = false ->
  ((forall b, snd (resume_n (S (List.length sched))
                     (performDelete deleteEntity context props e) (env x))
              <> Fulfilled b)
   /\ ok_then_run deleteEntity context props sched x
      = Some ({| ui := ui (setLoading true x);
                 env := fst (resume_n (S (List.length sched))
                               (performDelete deleteEntity context props e) (env x)) |},
              Some (OneThen e
                      (snd (resume_n (S (List.length sched))
                              (performDelete deleteEntity context props e) (env x))))))
  \/ (exists m success,
        m <= List.length sched
        /\ snd (resume_n (S m) (performDelete deleteEntity context props e) (env x))
           = Fulfilled success
        /\ ok_then_run deleteEntity context props sched x
           = Some (one_then props e success
                     {| ui := ui (setLoading true x);
                        env := fst (resume_n (S m)
                                      (performDelete deleteEntity context props e)
                                      (env x)) |},
                   None)).
Proof.
  intros Href Hmulti.
  unfold ok_then_run, handleOk. rewrite Href, Hmulti. simpl env.
  simpl resume_n.
  destruct (resume (performDelete deleteEntity context props e) (env x))
    as [w0 p0] eqn:R.
  destruct (run_one_then sched e p0 {| ui := ui (setLoading true x); env := w0 |})
    as [[Hp Hr] | (m & b & Hm & Hf & Hr)].
  - left. simpl in Hp, Hr |- *. split; [assumption | rewrite Hr; reflexivity].
  - right. exists m, b. simpl in Hf, Hr |- *.
    repeat split; [assumption | assumption | rewrite Hr; reflexivity].
Qed.

End DialogFacts.

(** ** Batch and single deletes through the dialog *)

(** Bring in what the batch callback did to the world of the goal: [Hl]
    for [loading], [Ht] for the trace. *)
Ltac all_then_facts Hl Ht :=
  match goal with
  | |- context [all_then ?p ?es ?rs ?y] =>
      destruct (all_then_effect p es rs y) as (Hl & _ & _ & _ & Ht)
  end.

(** The same for the callback of a single delete. *)
Ltac one_then_facts Hl Ht :=
  match goal with
  | |- context [one_then ?p ?e ?b ?y] =>
      destruct (one_then_effect p e b y) as (Hl & _ & _ & _ & Ht)
  end.

Section DialogClaims.

Variables M CMSAppContext Store : Type.

#[local] Abbreviation Entity' := (Entity M).
#[local] Abbreviation Env' := (Env M Store).
#[local] Abbreviation Promise' := (Promise M Store).
#[local] Abbreviation World' := (World M Store).

Variable deleteEntity :
  Entity' -> EntitySchema M CMSAppContext -> string ->
  (Entity' -> Env' -> Env') ->
  (Entity' -> Error -> Env' -> Env') ->
  (Entity' -> Error -> Env' -> Env') ->
  (Entity' -> Error -> Env' -> Env') ->
  CMSAppContext -> Promise' bool.
Variable context : CMSAppContext.
Variable props : DeleteEntityDialogProps M CMSAppContext.

#[local] Abbreviation ops := (operations deleteEntity context props).
#[local] Abbreviation press := (ok_then_run deleteEntity context props).

(** If the batch callback prop is supplied, the batch callback calls it
    once, with every entity of the batch, whatever the results are. *)
Lemma batch_callback_payload (x x' : World') (es : list Entity') (sched : list nat) :
  entityOrEntitiesRef (ui x) = Some (many es) ->
  multipleEntities (ui x) = Some true ->
  press sched x = Some (x', None) ->
  exists pre results,
    fulfilled_values (snd (ops es pre (env x))) = Some results
    /\ batch_callbacks (trace (env x'))
       = batch_callbacks (trace (fst (ops es pre (env x))))
         ++ (if onMultipleEntitiesDelete props then [(collectionPath props, es)] else []).
Proof.
  intros Href Hmulti Hrun.
  destruct (ok_then_run_batch deleteEntity context props x sched Href Hmulti)
    as [[_ Hr] | (pre & post & results & _ & Hf & Hr)];
    rewrite Hr in Hrun; [discriminate|].
  injection Hrun as <-. exists pre, results. split; [assumption|].
  all_then_facts Hl Ht.
  rewrite Ht. simpl env. rewrite batch_callbacks_app.
  destruct (onMultipleEntitiesDelete props); reflexivity.
Qed.

(** C2: for a non-empty batch of N targets whose operations resolved with
    k successes, the one snackbar message of the batch callback has
    severity success iff k = N, error iff k = 0, and warning iff
    0 < k < N. *)
Theorem batch_classification (x x' : World') (es : list Entity') (sched : list nat) :
  es <> [] ->
  entityOrEntitiesRef (ui x) = Some (many es) ->
  multipleEntities (ui x) = Some true ->
  press sched x = Some (x', None) ->
  exists pre results,
    fulfilled_values (snd (ops es pre (env x))) = Some results
    /\ List.length results = List.length es
    /\ notifications (trace (env x'))
       = notifications (trace (fst (ops es pre (env x))))
         ++ [batch_snackbar props results]
    /\ (type (batch_snackbar props results) = type_success
        <-> successes results = List.length es)
    /\ (type (batch_snackbar props results) = type_error
        <-> successes results = 0)
    /\ (type (batch_snackbar props results) = type_warning
        <-> 0 < successes results < List.length es).
Proof.
  intros Hne Href Hmulti Hrun.
  destruct (ok_then_run_batch deleteEntity context props x sched Href Hmulti)
    as [[_ Hr] | (pre & post & results & _ & Hf & Hr)];
    rewrite Hr in Hrun; [discriminate|].
  injection Hrun as <-.
  assert (Hlen : List.length results = List.length es).
  { rewrite (fulfilled_values_length _ Hf). apply operations_length. }
  all_then_facts Hl Ht.
  exists pre, results. split; [exact Hf|]. split; [exact Hlen|].
  split.
  { rewrite Ht. simpl env. rewrite !notifications_app.
    destruct (onMultipleEntitiesDelete props); simpl; reflexivity. }
  assert (Hpos : 0 < List.length es) by (destruct es; [congruence | simpl; lia]).
  pose proof (every_iff_all_succeeded results) as Hall.
  pose proof (some_iff_one_succeeded results) as Hsome.
  pose proof (successes_le results) as Hle.
  rewrite <- Hlen in *. unfold batch_snackbar.
  destruct (forallb (fun b => b) results); simpl.
  - assert (successes results = List.length results) by (apply Hall; reflexivity).
    repeat split; intros; try discriminate; try lia.
  - assert (successes results <> List.length results)
      by (intros E; apply Hall in E; discriminate).
    destruct (existsb (fun b => b) results); simpl.
    + assert (0 < successes results) by (apply Hsome; reflexivity).
      repeat split; intros; try discriminate; try lia.
    + assert (~ 0 < successes results)
        by (intros E; apply Hsome in E; discriminate).
      repeat split; intros; try discriminate; try lia.
Qed.

(** C3, as amended: the batch callback opens exactly one snackbar, after
    everything the delete operations did, and that is the only snackbar
    the dialog's own batch code opens; next to it, every call of one of
    the three error handlers the dialog hands to the delete operation
    opens one error snackbar of its own, and the success handler opens
    none. *)
Theorem batch_notifications (x x' : World') (es : list Entity') (sched : list nat) :
  entityOrEntitiesRef (ui x) = Some (many es) ->
  multipleEntities (ui x) = Some true ->
  press sched x = Some (x', None) ->
  (exists pre results,
     fulfilled_values (snd (ops es pre (env x))) = Some results
     /\ notifications (trace (env x'))
        = notifications (trace (fst (ops es pre (env x))))
          ++ [batch_snackbar props results])
  /\ (forall e err (w : Env'),
        notifications (trace (onDeleteFailure props e err w))
        = notifications (trace w)
          ++ [{| type := type_error;
                 title := Some (name (info (schema props)) ++ ": Error deleting")%string;
                 body := Some (message err) |}])
  /\ (forall e err (w : Env'),
        notifications (trace (onPreDeleteHookError props e err w))
        = notifications (trace w)
          ++ [{| type := type_error;
                 title := Some (name (info (schema props)) ++ ": Error before deleting")%string;
                 body := Some (message err) |}])
  /\ (forall e err (w : Env'),
        notifications (trace (onDeleteSuccessHookError props e err w))
        = notifications (trace w)
          ++ [{| type := type_error;
                 title := Some (name (info (schema props))
                                ++ ": Error after deleting (entity is deleted)")%string;
                 body := Some (message err) |}])
  /\ (forall e (w : Env'),
        notifications (trace (onDeleteSuccess (Store := Store) e w))
        = notifications (trace w)).
Proof.
  intros Href Hmulti Hrun. split.
  - destruct (ok_then_run_batch deleteEntity context props x sched Href Hmulti)
      as [[_ Hr] | (pre & post & results & _ & Hf & Hr)];
      rewrite Hr in Hrun; [discriminate|].
    injection Hrun as <-.
    all_then_facts Hl Ht.
    exists pre, results. split; [exact Hf|].
    rewrite Ht. simpl env. rewrite !notifications_app.
    destruct (onMultipleEntitiesDelete props); simpl; reflexivity.
  - repeat split; intros; simpl; rewrite ?notifications_app; simpl;
      rewrite ?app_nil_r; reflexivity.
Qed.

(** C7: the batch is a join.  After [Ok] and any turns of the event loop,
    either some delete operation is still unresolved, and then the dialog
    is loading and the environment is exactly what the operations made of
    it; or the callback has run, and then it ran once, on the environment
    in which every operation had resolved, with all the results. *)
Theorem batch_is_a_join (x : World') (es : list Entity') (sched : list nat) :
  entityOrEntitiesRef (ui x) = Some (many es) ->
  multipleEntities (ui x) = Some true ->
  exists x' job,
    press sched x = Some (x', job)
    /\ match job with
       | Some j =>
           fulfilled_values (snd (ops es sched (env x))) = None
           /\ j = AllThen es (snd (ops es sched (env x)))
           /\ loading (ui x') = true
           /\ env x' = fst (ops es sched (env x))
       | None =>
           exists pre post results,
             sched = pre ++ post
             /\ fulfilled_values (snd (ops es pre (env x))) = Some results
             /\ List.length results = List.length es
             /\ x' = all_then props es results
                       {| ui := ui (setLoading true x);
                          env := fst (ops es pre (env x)) |}
             /\ loading (ui x') = false
             /\ trace (env x')
                = trace (fst (ops es pre (env x)))
                  ++ (if onMultipleEntitiesDelete props
                      then [call_onMultipleEntitiesDelete (collectionPath props) es]
                      else [])
                  ++ [snackbar_open (batch_snackbar props results); call_onClose]
       end.
Proof.
  intros Href Hmulti.
  destruct (ok_then_run_batch deleteEntity context props x sched Href Hmulti)
    as [[Hp Hr] | (pre & post & results & Hs & Hf & Hr)].
  - eexists _, _. split; [exact Hr|]. simpl. repeat split. exact Hp.
  - eexists _, _. split; [exact Hr|]. cbv beta iota.
    exists pre, post, results.
    all_then_facts Hl Ht.
    split; [exact Hs|]. split; [exact Hf|].
    split; [rewrite (fulfilled_values_length _ Hf); apply operations_length|].
    split; [reflexivity|]. split; [exact Hl|].
    rewrite Ht. reflexivity.
Qed.


(** C9: a single delete that resolves to failure leaves the dialog open.
    Once the delete has resolved the callback has run; if it resolved to
    [false], [loading] is false again and the environment is exactly what
    the delete operation left: no [onClose], no [onEntityDelete] and no
    snackbar is added. *)
Theorem single_failure_keeps_dialog_open (x x' : World') (e : Entity')
  (sched : list nat) :
  entityOrEntitiesRef (ui x) = Some (one e) ->
  truthy (multipleEntities (ui x)) = false ->
  press sched x = Some (x', None) ->
  exists m success,
    m <= List.length sched
    /\ snd (resume_n (S m) (performDelete deleteEntity context props e) (env x))
       = Fulfilled success
    /\ (success = false ->
        let w := fst (resume_n (S m) (performDelete deleteEntity context props e)
                        (env x)) in
        loading (ui x') = false
        /\ env x' = w
        /\ close_calls (trace (env x')) = close_calls (trace w)
        /\ entity_callbacks (trace (env x')) = entity_callbacks (trace w)
        /\ notifications (trace (env x')) = notifications (trace w))
    /\ (success = true ->
        let w := fst (resume_n (S m) (performDelete deleteEntity context props e)
                        (env x)) in
        loading (ui x') = false
        /\ close_calls (trace (env x')) = S (close_calls (trace w))
        /\ notifications (trace (env x'))
           = notifications (trace w)
             ++ [{| type := type_success; title := None;
                    body := Some (name (info (schema props)) ++ " deleted")%string |}]).
Proof.
  intros Href Hmulti Hrun.
  destruct (ok_then_run_single deleteEntity context props x sched Href Hmulti)
    as [[_ Hr] | (m & b & Hm & Hf & Hr)];
    rewrite Hr in Hrun; [discriminate|].
  injection Hrun as <-. exists m, b.
  split; [exact Hm|]. split; [exact Hf|]. split.
  - intros ->. simpl. repeat split.
  - intros ->. cbv zeta. one_then_facts Hl Ht. split; [exact Hl|].
    rewrite Ht. simpl env.
    rewrite close_calls_app, !notifications_app.
    destruct (onEntityDelete props); simpl; split; try lia; reflexivity.
Qed.

(** C10: with no entity in the ref, [Ok] does nothing: it returns with
    the world as it was (state, store and trace) and leaves no job behind,
    so that no turn of the event loop changes anything either. *)
Theorem ok_without_entities_is_noop (x : World') :
  entityOrEntitiesRef (ui x) = None ->
  handleOk deleteEntity context props x = Some (x, None)
  /\ (forall sched, press sched x = Some (x, None))
  /\ (loading (ui x) = false ->
      forall sched x' job, press sched x = Some (x', job) ->
        loading (ui x') = false /\ trace (env x') = trace (env x) /\ job = None).
Proof.
  intros Href.
  assert (H : handleOk deleteEntity context props x = Some (x, None)).
  { unfold handleOk. rewrite Href. reflexivity. }
  assert (G : forall sched, press sched x = Some (x, None)).
  { intros sched. unfold ok_then_run. rewrite H, run_settled. reflexivity. }
  split; [exact H|]. split; [exact G|].
  intros Hloading sched x' job Hrun.
  rewrite G in Hrun. injection Hrun as <- <-.
  repeat split. exact Hloading.
Qed.

End DialogClaims.

(** ** The lifecycle engine *)

Import Firestore.


Section EngineClaims.

Variables M CMSAppContext Store : Type.
Context {SC : StoreCollaborator M Store}.

#[local] Abbreviation Entity' := (Entity M).
#[local] Abbreviation Env' := (Env M Store).
#[local] Abbreviation Schema' := (EntitySchema M CMSAppContext).

(** The props a delete hook of the dialog's schema is called with. *)
#[local] Abbreviation hook_props props context entity :=
  (entityDeleteProps (schema props) (collectionPath props) entity context).

(** The engine's delete never rejects and is over after three
    resumptions. *)
Lemma executeDelete_settles R (finish : OperationOutcome M -> Env' -> Env' * R)
  (s : Schema') (path : string) (entity : Entity') (context : CMSAppContext) :
  settles_within 3 (executeDelete finish s path entity context).
Proof.
  intros w1. unfold executeDelete. simpl.
  destruct (invoke_hook pre_delete (onPreDelete s) _) as [[f|u]|];
    [ destruct (finish _ w1) as [w1' r]; simpl; intros; eexists; reflexivity | | ];
    (simpl; intros w2; simpl;
     destruct (store_delete path (id entity) (store w2)) as [s' answer]; simpl;
     intros w3; simpl;
     destruct answer as [err|];
       [| destruct (invoke_hook post_delete (onDelete s) _) as [[f'|u']|] ];
     destruct (finish _ w3) as [w3' r]; eexists; reflexivity).
Qed.

(** C4: a pre-delete hook that throws stops the delete at its first step.
    The outcome is a failure of kind [HookFailure pre_delete] carrying the
    error; nothing has touched the store and no store delete is in the
    trace; of the four handlers only [onPreDeleteHookError] is called,
    with the entity and the error, and the promise is fulfilled with
    [false] and stays so.  Through the dialog that is one error snackbar
    titled "Error before deleting". *)
Theorem pre_delete_hook_blocks_delete
  (props : DeleteEntityDialogProps M CMSAppContext) (context : CMSAppContext)
  (entity : Entity') (h : EntityDeleteProps M CMSAppContext -> HookResult unit)
  (err : Error) (w : Env') :
  onPreDelete (schema props) = Some h ->
  h (hook_props props context entity) = raised err ->
  (forall n,
     resume_n (S n)
       (performDeleteOutcome (schema props) (collectionPath props)
          entity context) w
     = (w, Fulfilled (failure (Some (id entity))
                        {| kind := HookFailure pre_delete; cause := err |})))
  /\ (forall onSuccess onFailure onPreError onPostError n,
        resume_n (S n)
          (deleteEntity entity (schema props) (collectionPath props)
             onSuccess onFailure onPreError onPostError context) w
        = (onPreError entity err w, Fulfilled false))
  /\ (forall n,
        let w' := fst (resume_n (S n)
                         (performDelete (@deleteEntity M CMSAppContext Store SC)
                            context props entity) w) in
        w' = onPreDeleteHookError props entity err w
        /\ store w' = store w
        /\ store_delete_calls (trace w') = store_delete_calls (trace w)
        /\ notifications (trace w')
           = notifications (trace w)
             ++ [{| type := type_error;
                    title := Some (name (info (schema props))
                                   ++ ": Error before deleting")%string;
                    body := Some (message err) |}]).
Proof.
  intros Hhook Hraise.
  assert (Hinv : invoke_hook pre_delete (onPreDelete (schema props))
                   (hook_props props context entity)
                 = Some (inl {| kind := HookFailure pre_delete; cause := err |})).
  { unfold invoke_hook. rewrite Hhook, Hraise. reflexivity. }
  split; [|split].
  - intros n. simpl. unfold performDeleteOutcome, executeDelete.
    simpl. rewrite Hinv. apply resume_n_fulfilled.
  - intros onSuccess onFailure onPreError onPostError n. simpl.
    unfold deleteEntity, executeDelete.
    simpl. rewrite Hinv. simpl. apply resume_n_fulfilled.
  - intros n. simpl. unfold performDelete, deleteEntity, executeDelete.
    simpl resume. rewrite Hinv. simpl. rewrite resume_n_fulfilled. simpl.
    split; [reflexivity|]. split; [reflexivity|]. split.
    + rewrite !store_delete_calls_app. simpl. rewrite !app_nil_r. reflexivity.
    + rewrite !notifications_app. simpl. rewrite !app_nil_r. reflexivity.
Qed.

(** C5: when the store has deleted the document and the post-delete hook
    throws, the outcome is still a success, with the hook failure of kind
    [HookFailure post_delete] next to it; the promise is fulfilled with
    [true]; the success handler and then [onDeleteSuccessHookError] are
    called, and through the dialog that is one error snackbar whose title
    says that the entity is deleted.  The environments [w1], [w2], [w3] are
    those of the three resumptions, whatever ran in between. *)
Theorem post_delete_hook_error_keeps_success
  (props : DeleteEntityDialogProps M CMSAppContext) (context : CMSAppContext)
  (entity : Entity') (h : EntityDeleteProps M CMSAppContext -> HookResult unit)
  (err : Error) (w1 w2 w3 : Env') (s' : Store) :
  (forall f, invoke_hook pre_delete (onPreDelete (schema props))
               (hook_props props context entity) <> Some (inl f)) ->
  store_delete (collectionPath props) (id entity) (store w2) = (s', None) ->
  onDelete (schema props) = Some h ->
  h (hook_props props context entity) = raised err ->
  let after_store :=
    emit (store_delete_call (collectionPath props) (id entity))
         {| store := s'; trace := trace w2 |} in
  (let p1 := snd (resume (performDeleteOutcome (schema props)
                            (collectionPath props) entity context) w1) in
   let p2 := snd (resume p1 w2) in
   resume p1 w2 = (after_store, p2)
   /\ resume p2 w3
      = (w3, Fulfilled (success entity
                          (Some {| kind := HookFailure post_delete; cause := err |}))))
  /\ (let p1 := snd (resume (performDelete
                              (@deleteEntity M CMSAppContext Store SC)
                              context props entity) w1) in
      let p2 := snd (resume p1 w2) in
      resume p1 w2 = (after_store, p2)
      /\ resume p2 w3
         = (onDeleteSuccessHookError props entity err (onDeleteSuccess entity w3),
            Fulfilled true)
      /\ notifications
           (trace (onDeleteSuccessHookError props entity err (onDeleteSuccess entity w3)))
         = notifications (trace w3)
           ++ [{| type := type_error;
                  title := Some (name (info (schema props))
                                 ++ ": Error after deleting (entity is deleted)")%string;
                  body := Some (message err) |}]).
Proof.
  intros Hpre Hstore Hhook Hraise after_store.
  assert (Hpost : invoke_hook post_delete (onDelete (schema props))
                    (hook_props props context entity)
                  = Some (inl {| kind := HookFailure post_delete; cause := err |})).
  { unfold invoke_hook. rewrite Hhook, Hraise. reflexivity. }
  split.
  - unfold performDeleteOutcome, executeDelete. simpl.
    destruct (invoke_hook pre_delete (onPreDelete (schema props)) _)
      as [[f|u]|] eqn:E; [exfalso; exact (Hpre f eq_refl) | |];
      simpl; rewrite Hstore; simpl; rewrite Hpost; split; reflexivity.
  - unfold performDelete, deleteEntity, executeDelete. simpl.
    destruct (invoke_hook pre_delete (onPreDelete (schema props)) _)
      as [[f|u]|] eqn:E; [exfalso; exact (Hpre f eq_refl) | |];
      simpl; rewrite Hstore; simpl; rewrite Hpost; simpl;
      (split; [reflexivity|]); (split; [reflexivity|]);
      rewrite !notifications_app; simpl; rewrite !app_nil_r; reflexivity.
Qed.



End EngineClaims.

(** ** The dialog over the engine *)

Section DialogOverEngine.

Variables M CMSAppContext Store : Type.
Context {SC : StoreCollaborator M Store}.

Variable context : CMSAppContext.
Variable props : DeleteEntityDialogProps M CMSAppContext.

#[local] Abbreviation engine := (@deleteEntity M CMSAppContext Store SC).

(** With the engine's [deleteEntity] behind the dialog every batch is
    over after two rounds of the event loop: every operation has resolved
    and the callback has run. *)
Lemma batch_completes (x : World M Store) (es : list (Entity M)) :
  entityOrEntitiesRef (ui x) = Some (many es) ->
  multipleEntities (ui x) = Some true ->
  exists x',
    ok_then_run engine context props
      (seq 0 (List.length es) ++ seq 0 (List.length es)) x
    = Some (x', None).
Proof.
  intros Href Hmulti.
  set (sched := seq 0 (List.length es) ++ seq 0 (List.length es)).
  destruct (ok_then_run_batch engine context props x sched Href Hmulti)
    as [[Hp _] | (pre & post & results & _ & _ & Hr)];
    [| eexists; exact Hr].
  exfalso. rewrite operations_unfold in Hp.
  set (ps := map (performDelete engine context props) es) in Hp.
  assert (H3 : Forall (settles_within 3) ps).
  { apply Forall_forall. intros p Hin. apply in_map_iff in Hin.
    destruct Hin as [e [<- _]]. apply executeDelete_settles. }
  assert (Hlen : List.length (snd (launch_all ps (env x))) = List.length es).
  { rewrite launch_all_length. unfold ps. apply length_map. }
  pose proof (launch_all_settles (env x) H3) as H2.
  set (w0 := fst (launch_all ps (env x))) in *.
  set (ps0 := snd (launch_all ps (env x))) in *.
  assert (Hround : forall (qs : list (Promise M Store bool)) w,
             List.length qs = List.length es ->
             steps (seq 0 (List.length es)) qs w = launch_all qs w).
  { intros qs w <-. apply steps_round. }
  unfold sched in Hp. rewrite steps_app in Hp.
  rewrite (Hround ps0 w0 Hlen) in Hp.
  pose proof (launch_all_settles w0 H2) as H1.
  rewrite Hround in Hp by (rewrite launch_all_length; exact Hlen).
  pose proof (launch_all_settles (fst (launch_all ps0 w0)) H1) as H0.
  destruct (settled_pool_fulfilled H0) as [vs Hvs].
  rewrite Hvs in Hp. discriminate.
Qed.

End DialogOverEngine.

(** ** The sample shop, run *)

Section Runs.

Import Sample Scenario.

#[local] Abbreviation engine := (@deleteEntity Values unit MemStore _).
#[local] Abbreviation press := (ok_then_run engine tt).

(** C1: in a batch of products 1, 2 and 3 where the store refuses
    product 2, the results are success, failure, success and the snackbar
    is the warning, yet [onMultipleEntitiesDelete] is called with all three
    products and not with the two that were deleted; when the store
    refuses all three, the snackbar is the error and the callback is called
    all the same, again with all three. *)
Theorem partial_batch_reports_every_entity :
  (exists x',
     press batch_props two_rounds (batch_dialog ["2"]) = Some (x', None)
     /\ fulfilled_values
          (snd (operations engine tt batch_props three two_rounds (shop ["2"])))
        = Some [true; false; true]
     /\ succeeded three [true; false; true] = [product "1"; product "3"]
     /\ map type (notifications (trace (env x'))) = [type_error; type_warning]
     /\ batch_callbacks (trace (env x')) = [("products", three)])
  /\ (exists x',
        press batch_props two_rounds (batch_dialog ["1"; "2"; "3"]) = Some (x', None)
        /\ fulfilled_values
             (snd (operations engine tt batch_props three two_rounds
                     (shop ["1"; "2"; "3"])))
           = Some [false; false; false]
        /\ succeeded three [false; false; false] = []
        /\ map type (notifications (trace (env x')))
           = [type_error; type_error; type_error; type_error]
        /\ batch_callbacks (trace (env x')) = [("products", three)]).
Proof.
  split; eexists; repeat split; vm_compute; reflexivity.
Qed.

(** C3 fails as stated: a batch of three products that the store refuses
    one and all opens four snackbars, one per product and then the one of
    the batch. *)
Lemma refused_batch_opens_four_snackbars :
  exists x',
    press batch_props two_rounds (batch_dialog ["1"; "2"; "3"]) = Some (x', None)
    /\ notifications (trace (env x'))
       = [refusal; refusal; refusal;
          {| type := type_error; title := None;
             body := Some "Product: Error deleting entities" |}]
    /\ List.length (notifications (trace (env x'))) <> 1.
Proof.
  eexists. split; [vm_compute; reflexivity|]. split; [reflexivity|].
  simpl. discriminate.
Qed.

(** [batch_classification] on the shop that refuses product 2. *)
Lemma batch_classification_witness :
  three <> []
  /\ entityOrEntitiesRef (ui (batch_dialog ["2"])) = Some (many three)
  /\ multipleEntities (ui (batch_dialog ["2"])) = Some true
  /\ press batch_props two_rounds (batch_dialog ["2"]) = Some (batch_end ["2"], None)
  /\ exists pre results,
       fulfilled_values
         (snd (operations engine tt batch_props three pre (env (batch_dialog ["2"]))))
       = Some results
       /\ List.length results = List.length three
       /\ notifications (trace (env (batch_end ["2"])))
          = notifications
              (trace (fst (operations engine tt batch_props three pre
                             (env (batch_dialog ["2"])))))
            ++ [batch_snackbar batch_props results]
       /\ (type (batch_snackbar batch_props results) = type_success
           <-> successes results = List.length three)
       /\ (type (batch_snackbar batch_props results) = type_error
           <-> successes results = 0)
       /\ (type (batch_snackbar batch_props results) = type_warning
           <-> 0 < successes results < List.length three).
Proof.
  assert (H1 : three <> []) by discriminate.
  assert (H2 : entityOrEntitiesRef (ui (batch_dialog ["2"])) = Some (many three))
    by reflexivity.
  assert (H3 : multipleEntities (ui (batch_dialog ["2"])) = Some true)
    by reflexivity.
  assert (H4 : press batch_props two_rounds (batch_dialog ["2"])
               = Some (batch_end ["2"], None))
    by (vm_compute; reflexivity).
  split; [exact H1|]. split; [exact H2|]. split; [exact H3|]. split; [exact H4|].
  exact (batch_classification engine tt batch_props (batch_dialog ["2"])
           two_rounds H1 H2 H3 H4).
Defined.

(** [batch_notifications] on the shop that refuses product 2. *)
Lemma batch_notifications_witness :
  entityOrEntitiesRef (ui (batch_dialog ["2"])) = Some (many three)
  /\ multipleEntities (ui (batch_dialog ["2"])) = Some true
  /\ press batch_props two_rounds (batch_dialog ["2"]) = Some (batch_end ["2"], None)
  /\ exists pre results,
       fulfilled_values
         (snd (operations engine tt batch_props three pre (env (batch_dialog ["2"]))))
       = Some results
       /\ notifications (trace (env (batch_end ["2"])))
          = notifications
              (trace (fst (operations engine tt batch_props three pre
                             (env (batch_dialog ["2"])))))
            ++ [batch_snackbar batch_props results].
Proof.
  assert (H2 : entityOrEntitiesRef (ui (batch_dialog ["2"])) = Some (many three))
    by reflexivity.
  assert (H3 : multipleEntities (ui (batch_dialog ["2"])) = Some true)
    by reflexivity.
  assert (H4 : press batch_props two_rounds (batch_dialog ["2"])
               = Some (batch_end ["2"], None))
    by (vm_compute; reflexivity).
  split; [exact H2|]. split; [exact H3|]. split; [exact H4|].
  exact (proj1 (batch_notifications engine tt batch_props (batch_dialog ["2"])
                  two_rounds H2 H3 H4)).
Defined.

(** [batch_is_a_join] on the same shop, one turn short of two rounds. *)
Lemma batch_is_a_join_witness :
  entityOrEntitiesRef (ui (batch_dialog ["2"])) = Some (many three)
  /\ multipleEntities (ui (batch_dialog ["2"])) = Some true
  /\ exists x' job,
       press batch_props [0; 1; 2; 0; 1] (batch_dialog ["2"]) = Some (x', job)
       /\ match job with
          | Some j =>
              fulfilled_values
                (snd (operations engine tt batch_props three [0; 1; 2; 0; 1]
                        (env (batch_dialog ["2"])))) = None
              /\ j = AllThen three
                       (snd (operations engine tt batch_props three [0; 1; 2; 0; 1]
                               (env (batch_dialog ["2"]))))
              /\ loading (ui x') = true
              /\ env x' = fst (operations engine tt batch_props three [0; 1; 2; 0; 1]
                                 (env (batch_dialog ["2"])))
          | None =>
              exists pre post results,
                [0; 1; 2; 0; 1] = pre ++ post
                /\ fulfilled_values
                     (snd (operations engine tt batch_props three pre
                             (env (batch_dialog ["2"])))) = Some results
                /\ List.length results = List.length three
                /\ x' = all_then batch_props three results
                          {| ui := ui (setLoading true (batch_dialog ["2"]));
                             env := fst (operations engine tt batch_props three pre
                                           (env (batch_dialog ["2"]))) |}
                /\ loading (ui x') = false
                /\ trace (env x')
                   = trace (fst (operations engine tt batch_props three pre
                                   (env (batch_dialog ["2"]))))
                     ++ (if onMultipleEntitiesDelete batch_props
                         then [call_onMultipleEntitiesDelete
                                 (collectionPath batch_props) three]
                         else [])
                     ++ [snackbar_open (batch_snackbar batch_props results);
                         call_onClose]
          end.
Proof.
  assert (H2 : entityOrEntitiesRef (ui (batch_dialog ["2"])) = Some (many three))
    by reflexivity.
  assert (H3 : multipleEntities (ui (batch_dialog ["2"])) = Some true)
    by reflexivity.
  split; [exact H2|]. split; [exact H3|].
  exact (batch_is_a_join engine tt batch_props (batch_dialog ["2"])
           [0; 1; 2; 0; 1] H2 H3).
Defined.


(** [single_failure_keeps_dialog_open] on product 2, which the shop
    refuses. *)
Lemma single_failure_keeps_dialog_open_witness :
  entityOrEntitiesRef (ui (single_dialog ["2"])) = Some (one (product "2"))
  /\ truthy (multipleEntities (ui (single_dialog ["2"]))) = false
  /\ press single_props [0; 0] (single_dialog ["2"]) = Some (single_end ["2"], None)
  /\ exists m success,
       m <= 2
       /\ snd (single_operation ["2"] (S m)) = Fulfilled success
       /\ (success = false ->
           let w := fst (single_operation ["2"] (S m)) in
           loading (ui (single_end ["2"])) = false
           /\ env (single_end ["2"]) = w
           /\ close_calls (trace (env (single_end ["2"]))) = close_calls (trace w)
           /\ entity_callbacks (trace (env (single_end ["2"])))
              = entity_callbacks (trace w)
           /\ notifications (trace (env (single_end ["2"])))
              = notifications (trace w))
       /\ (success = true ->
           let w := fst (single_operation ["2"] (S m)) in
           loading (ui (single_end ["2"])) = false
           /\ close_calls (trace (env (single_end ["2"]))) = S (close_calls (trace w))
           /\ notifications (trace (env (single_end ["2"])))
              = notifications (trace w)
                ++ [{| type := type_success; title := None;
                       body := Some "Product deleted"%string |}]).
Proof.
  assert (H1 : entityOrEntitiesRef (ui (single_dialog ["2"]))
               = Some (one (product "2"))) by reflexivity.
  assert (H2 : truthy (multipleEntities (ui (single_dialog ["2"]))) = false)
    by reflexivity.
  assert (H3 : press single_props [0; 0] (single_dialog ["2"])
               = Some (single_end ["2"], None))
    by (vm_compute; reflexivity).
  split; [exact H1|]. split; [exact H2|]. split; [exact H3|].
  exact (single_failure_keeps_dialog_open engine tt single_props
           (single_dialog ["2"]) [0; 0] H1 H2 H3).
Defined.

(** [ok_without_entities_is_noop] on the dialog mounted with nothing to
    delete. *)
Lemma ok_without_entities_is_noop_witness :
  entityOrEntitiesRef (ui (opened Product None (shop []))) = None
  /\ (handleOk engine tt (dialog_props Product None) (opened Product None (shop []))
      = Some (opened Product None (shop []), None)
      /\ (forall sched,
            press (dialog_props Product None) sched (opened Product None (shop []))
            = Some (opened Product None (shop []), None))
      /\ (loading (ui (opened Product None (shop []))) = false ->
          forall sched x' job,
            press (dialog_props Product None) sched (opened Product None (shop []))
            = Some (x', job) ->
            loading (ui x') = false
            /\ trace (env x') = trace (env (opened Product None (shop [])))
            /\ job = None)).
Proof.
  assert (H1 : entityOrEntitiesRef (ui (opened Product None (shop []))) = None)
    by reflexivity.
  split; [exact H1|].
  exact (ok_without_entities_is_noop engine tt (dialog_props Product None)
           (opened Product None (shop [])) H1).
Defined.

(** [pre_delete_hook_blocks_delete] on the guarded schema. *)
Lemma pre_delete_hook_blocks_delete_witness :
  onPreDelete (schema (dialog_props Product_guarded None))
  = Some (fun _ => raised {| message := "locked" |})
  /\ (fun _ : EntityDeleteProps Values unit => raised (A := unit) {| message := "locked" |})
       (called_with Product_guarded (product "1"))
     = raised {| message := "locked" |}
  /\ (forall n,
        resume_n (S n)
          (performDeleteOutcome Product_guarded "products" (product "1") tt) (shop [])
        = (shop [],
           Fulfilled (failure (Some "1")
                        {| kind := HookFailure pre_delete;
                           cause := {| message := "locked" |} |})))
  /\ (forall n,
        store_delete_calls
          (trace (fst (resume_n (S n)
                         (performDelete engine tt (dialog_props Product_guarded None)
                            (product "1")) (shop []))))
        = []).
Proof.
  assert (H1 : onPreDelete (schema (dialog_props Product_guarded None))
               = Some (fun _ => raised {| message := "locked" |})) by reflexivity.
  assert (H2 : (fun _ : EntityDeleteProps Values unit =>
                  raised (A := unit) {| message := "locked" |})
                 (called_with Product_guarded (product "1"))
               = raised {| message := "locked" |}) by reflexivity.
  split; [exact H1|]. split; [exact H2|].
  pose proof (pre_delete_hook_blocks_delete (dialog_props Product_guarded None) tt
                (product "1") (shop []) H1 H2) as (Houtcome & _ & Hdialog).
  split; [exact Houtcome|].
  intros n. exact (proj1 (proj2 (proj2 (Hdialog n)))).
Defined.

(** [post_delete_hook_error_keeps_success] on the audited schema and
    product 1, which the shop deletes. *)
Lemma post_delete_hook_error_keeps_success_witness :
  let sold := {| store := {| docs := [("products", "2"); ("products", "3")];
                             refused := [] |};
                 trace := [store_delete_call "products" "1"] |} in
  (forall f, invoke_hook pre_delete (onPreDelete Product_audited)
               (called_with Product_audited (product "1")) <> Some (inl f))
  /\ store_delete "products" "1" (store (shop [])) = (store sold, None)
  /\ onDelete Product_audited = Some (fun _ => raised {| message := "audit log down" |})
  /\ (let p1 := snd (resume (performDeleteOutcome Product_audited "products"
                               (product "1") tt) (shop [])) in
      let p2 := snd (resume p1 (shop [])) in
      resume p1 (shop []) = (sold, p2)
      /\ resume p2 sold
         = (sold,
            Fulfilled (success (product "1")
                         (Some {| kind := HookFailure post_delete;
                                  cause := {| message := "audit log down" |} |}))))
  /\ (let p1 := snd (resume (performDelete engine tt
                               (dialog_props Product_audited None) (product "1"))
                       (shop [])) in
      let p2 := snd (resume p1 (shop [])) in
      resume p1 (shop []) = (sold, p2)
      /\ snd (resume p2 sold) = Fulfilled true
      /\ notifications (trace (fst (resume p2 sold)))
         = [{| type := type_error;
               title := Some "Product: Error after deleting (entity is deleted)";
               body := Some "audit log down" |}]).
Proof.
  intros sold.
  assert (H1 : forall f, invoke_hook pre_delete (onPreDelete Product_audited)
                 (called_with Product_audited (product "1")) <> Some (inl f))
    by (intros f; discriminate).
  assert (H2 : store_delete "products" "1" (store (shop [])) = (store sold, None))
    by reflexivity.
  assert (H3 : onDelete (schema (dialog_props Product_audited None))
               = Some (fun _ => raised {| message := "audit log down" |}))
    by reflexivity.
  assert (H4 : (fun _ : EntityDeleteProps Values unit =>
                  raised (A := unit) {| message := "audit log down" |})
                 (called_with Product_audited (product "1"))
               = raised {| message := "audit log down" |}) by reflexivity.
  split; [exact H1|]. split; [exact H2|]. split; [exact H3|].
  pose proof (post_delete_hook_error_keeps_success
                (dialog_props Product_audited None) tt (product "1")
                (shop []) (shop []) sold H1 H2 H3 H4)
    as [Houtcome [Hd2 [Hd3 Hn]]].
  split; [exact Houtcome|].
  split; [exact Hd2|]. split.
  - rewrite Hd3. reflexivity.
  - rewrite Hd3. exact Hn.
Defined.


End Runs.

(** * Further properties of the dialog *)

(** ** Rejected promises and longer schedules *)

Section MoreScheduling.

Variables M Store : Type.

#[local] Abbreviation Env' := (Env M Store).
#[local] Abbreviation Promise' := (Promise M Store).

Lemma resume_n_add A (a b : nat) (p : Promise' A) (w : Env') :
  resume_n (a + b) p w
  = resume_n b (snd (resume_n a p w)) (fst (resume_n a p w)).
Proof.
  revert p w. induction a as [|a IH]; intros p w; simpl; [reflexivity|].
  destruct (resume p w) as [w' p']. apply IH.
Qed.

(** Once fulfilled or rejected, a promise is that at every later
    resumption. *)
Lemma resume_n_fulfilled_later A (m n : nat) (p : Promise' A) (w : Env') (a : A) :
  m <= n ->
  snd (resume_n m p w) = Fulfilled a ->
  resume_n n p w = (fst (resume_n m p w), Fulfilled a).
Proof.
  intros Hle Hf. replace n with (m + (n - m)) by lia.
  rewrite resume_n_add, Hf. apply resume_n_fulfilled.
Qed.

Lemma resume_n_rejected_later A (m n : nat) (p : Promise' A) (w : Env') (err : Error) :
  m <= n ->
  snd (resume_n m p w) = Rejected err ->
  resume_n n p w = (fst (resume_n m p w), Rejected err).
Proof.
  intros Hle Hf. replace n with (m + (n - m)) by lia.
  rewrite resume_n_add, Hf. apply resume_n_rejected.
Qed.

(** A rejected promise stays in the pool, and a pool that holds one never
    has all its values. *)
Lemma resume_nth_keeps_rejected A (i : nat) (ps : list (Promise' A)) (w : Env')
  (err : Error) :
  In (Rejected err) ps -> In (Rejected err) (snd (resume_nth i ps w)).
Proof.
  revert i w. induction ps as [|p ps IH]; intros [|j] w Hin; simpl in *;
    try contradiction.
  - destruct Hin as [-> | Hin]; simpl; [left; reflexivity|].
    destruct (resume p w). simpl. right. exact Hin.
  - specialize (IH j w). destruct (resume_nth j ps w) as [w' ps']. simpl in *.
    destruct Hin as [-> | Hin]; [left; reflexivity | right; apply IH, Hin].
Qed.

Lemma steps_keep_rejected A (sched : list nat) (ps : list (Promise' A)) (w : Env')
  (err : Error) :
  In (Rejected err) ps -> In (Rejected err) (snd (steps sched ps w)).
Proof.
  revert ps w. induction sched as [|i sched IH]; intros ps w Hin.
  - exact Hin.
  - rewrite steps_cons. apply IH, resume_nth_keeps_rejected, Hin.
Qed.

Lemma fulfilled_values_rejected A (ps : list (Promise' A)) (err : Error) :
  In (Rejected err) ps -> fulfilled_values ps = None.
Proof.
  induction ps as [|p ps IH]; intros Hin; simpl in *; [contradiction|].
  destruct Hin as [-> | Hin]; [reflexivity|].
  destruct p; try reflexivity. rewrite (IH Hin). reflexivity.
Qed.

End MoreScheduling.

(** ** The dialog in other states *)

Section DialogExtras.

Variables M CMSAppContext Store : Type.

#[local] Abbreviation Entity' := (Entity M).
#[local] Abbreviation Env' := (Env M Store).
#[local] Abbreviation Promise' := (Promise M Store).
#[local] Abbreviation World' := (World M Store).

Variable deleteEntity :
  Entity' -> EntitySchema M CMSAppContext -> string ->
  (Entity' -> Env' -> Env') ->
  (Entity' -> Error -> Env' -> Env') ->
  (Entity' -> Error -> Env' -> Env') ->
  (Entity' -> Error -> Env' -> Env') ->
  CMSAppContext -> Promise' bool.
Variable context : CMSAppContext.
Variable props : DeleteEntityDialogProps M CMSAppContext.

#[local] Abbreviation ops := (operations deleteEntity context props).
#[local] Abbreviation press := (ok_then_run deleteEntity context props).
#[local] Abbreviation delete_of e := (performDelete deleteEntity context props e).

Lemma run_app (a b : list nat) (st : World' * option (Job M Store)) :
  run props (a ++ b) st = run props b (run props a st).
Proof. unfold run. apply fold_left_app. Qed.

Lemma operations_app (es : list Entity') (pre post : list nat) (w : Env') :
  ops es (pre ++ post) w
  = steps post (snd (ops es pre w)) (fst (ops es pre w)).
Proof.
  rewrite !operations_unfold. apply steps_app.
Qed.

(** Once every operation has resolved, further turns change nothing. *)
Lemma operations_settled (es : list Entity') (pre post : list nat) (w : Env')
  (results : list bool) :
  fulfilled_values (snd (ops es pre w)) = Some results ->
  ops es (pre ++ post) w = ops es pre w.
Proof.
  intros Hf. rewrite operations_app, (steps_fulfilled post _ _ Hf).
  destruct (ops es pre w); reflexivity.
Qed.

(** A batch whose callback has run: the callback ran on what the
    operations left, and they had all resolved. *)
Lemma batch_fired (x x' : World') (es : list Entity') (sched : list nat) :
  entityOrEntitiesRef (ui x) = Some (many es) ->
  multipleEntities (ui x) = Some true ->
  press sched x = Some (x', None) ->
  exists results,
    fulfilled_values (snd (ops es sched (env x))) = Some results
    /\ x' = all_then props es results
              {| ui := ui (setLoading true x);
                 env := fst (ops es sched (env x)) |}.
Proof.
  intros Href Hmulti Hrun.
  destruct (ok_then_run_batch deleteEntity context props x sched Href Hmulti)
    as [[_ Hr] | (pre & post & results & -> & Hf & Hr)];
    rewrite Hr in Hrun; [discriminate|].
  injection Hrun as <-. exists results.
  rewrite (operations_settled es pre post (env x) Hf).
  split; [exact Hf | reflexivity].
Qed.

(** A batch whose callback has not run. *)
Lemma batch_pending (x x' : World') (es : list Entity') (sched : list nat)
  (j : Job M Store) :
  entityOrEntitiesRef (ui x) = Some (many es) ->
  multipleEntities (ui x) = Some true ->
  press sched x = Some (x', Some j) ->
  x' = {| ui := ui (setLoading true x); env := fst (ops es sched (env x)) |}.
Proof.
  intros Href Hmulti Hrun.
  destruct (ok_then_run_batch deleteEntity context props x sched Href Hmulti)
    as [[_ Hr] | (pre & post & results & _ & _ & Hr)];
    rewrite Hr in Hrun; [|discriminate].
  injection Hrun as <- _. reflexivity.
Qed.

(** The same two for a single delete. *)
Lemma single_fired (x x' : World') (e : Entity') (sched : list nat) :
  entityOrEntitiesRef (ui x) = Some (one e) ->
  truthy (multipleEntities (ui x)) = false ->
  press sched x = Some (x', None) ->
  exists success,
    snd (resume_n (S (List.length sched)) (delete_of e) (env x)) = Fulfilled success
    /\ x' = one_then props e success
              {| ui := ui (setLoading true x);
                 env := fst (resume_n (S (List.length sched)) (delete_of e) (env x)) |}.
Proof.
  intros Href Hmulti Hrun.
  destruct (ok_then_run_single deleteEntity context props x sched Href Hmulti)
    as [[_ Hr] | (m & b & Hm & Hf & Hr)];
    rewrite Hr in Hrun; [discriminate|].
  injection Hrun as <-. exists b.
  assert (Hlater : resume_n (S (List.length sched)) (delete_of e) (env x)
                   = (fst (resume_n (S m) (delete_of e) (env x)), Fulfilled b)).
  { apply resume_n_fulfilled_later; [lia | exact Hf]. }
  rewrite Hlater. split; reflexivity.
Qed.

Lemma single_pending (x x' : World') (e : Entity') (sched : list nat)
  (j : Job M Store) :
  entityOrEntitiesRef (ui x) = Some (one e) ->
  truthy (multipleEntities (ui x)) = false ->
  press sched x = Some (x', Some j) ->
  x' = {| ui := ui (setLoading true x);
          env := fst (resume_n (S (List.length sched)) (delete_of e) (env x)) |}.
Proof.
  intros Href Hmulti Hrun.
  destruct (ok_then_run_single deleteEntity context props x sched Href Hmulti)
    as [[_ Hr] | (m & b & _ & _ & Hr)];
    rewrite Hr in Hrun; [|discriminate].
  injection Hrun as <- _. reflexivity.
Qed.

(** In a coherent state the ref and [multipleEntities] are of one of
    three shapes. *)
Lemma coherent_cases (d : DialogState M) :
  coherent d ->
  entityOrEntitiesRef d = None
  \/ (exists e, entityOrEntitiesRef d = Some (one e)
                /\ truthy (multipleEntities d) = false)
  \/ (exists es, entityOrEntitiesRef d = Some (many es)
                 /\ multipleEntities d = Some true).
Proof.
  unfold coherent. intros H.
  destruct (entityOrEntitiesRef d) as [[e|es]|].
  - right. left. exists e. rewrite H. split; reflexivity.
  - right. right. exists es. split; [reflexivity | exact H].
  - left. reflexivity.
Qed.

(** X1: an empty array is a batch that is over at once.  Given
    [entityOrEntitiesToDelete = []] while it is not showing a batch, the
    dialog renders again after the effect with the empty array in hand,
    and [Ok] starts no delete at all: whatever the schedule, the callback
    has run, the store is as it was, and the trace has gained the call of
    [onMultipleEntitiesDelete] with the empty array (when supplied), the
    success snackbar "multiple deleted" and [onClose]. *)
Theorem empty_batch_succeeds_at_once (d : DialogState M) (w : Env')
  (sched : list nat) :
  entityOrEntitiesToDelete props = Some (many []) ->
  multipleEntities d <> Some true ->
  exists x',
    press sched {| ui := rendered props d; env := w |} = Some (x', None)
    /\ loading (ui x') = false
    /\ store (env x') = store w
    /\ trace (env x')
       = trace w
         ++ (if onMultipleEntitiesDelete props
             then [call_onMultipleEntitiesDelete (collectionPath props) []]
             else [])
         ++ [snackbar_open
               {| type := type_success; title := None;
                  body := Some (name (info (schema props)) ++ ": multiple deleted")%string |};
             call_onClose].
Proof.
  intros Hgiven Hnot.
  assert (Hd : useEffect props d
               = {| loading := loading d;
                    entityOrEntitiesRef := Some (many []);
                    multipleEntities := Some true |}).
  { unfold useEffect. rewrite Hgiven. reflexivity. }
  rewrite rendered_changed
    by (rewrite Hd; simpl; intros H; apply Hnot; symmetry; exact H).
  rewrite Hd. unfold ok_then_run, handleOk. simpl. rewrite run_settled.
  eexists. split; [reflexivity|].
  match goal with
  | |- context [all_then ?p ?es ?rs ?y] =>
      destruct (all_then_effect p es rs y) as (Hl & _ & _ & Hs & Ht)
  end.
  split; [exact Hl|]. split; [exact Hs|].
  rewrite Ht. reflexivity.
Qed.

(** X2: what the dialog shows once the render with a new value of
    [entityOrEntitiesToDelete] and its effect are over.  Given an array
    that is not of one entity, it asks to confirm the multiple delete and
    renders no content element at all.  Given one entity, as such or as an
    array of one, it asks the single-entity question and previews one
    entity: the given one when the dialog was not on the single-entity
    path before, and otherwise the one selected before, which the render
    on screen read from the ref before the effect wrote the new one. *)
Theorem effect_then_render (d : DialogState M) (given : EntityOrEntities M) :
  entityOrEntitiesToDelete props = Some given ->
  consistent d ->
  let view := render props (rendered props d) in
  match given with
  | one e | many [e] =>
      entityOrEntitiesRef (useEffect props d) = Some (one e)
      /\ multipleEntities (rendered props d) = Some false
      /\ dialogTitle view
         = ("Would you like to delete this " ++ name (info (schema props)) ++ "?")%string
      /\ exists t,
           dialogContent view = Some (Some (EntityPreview (one t) (schema props)))
           /\ (multipleEntities d <> Some false -> t = e)
           /\ (multipleEntities d = Some false ->
               entityOrEntitiesRef d = Some (one t))
  | many es =>
      entityOrEntitiesRef (useEffect props d) = Some (many es)
      /\ multipleEntities (rendered props d) = Some true
      /\ dialogTitle view
         = (name (info (schema props)) ++ ": Confirm multiple delete?")%string
      /\ dialogContent view = None
  end.
Proof.
  intros Hgiven (Hco & Hno & Hset).
  assert (Hsingle : forall e,
             useEffect props d
             = {| loading := loading d;
                  entityOrEntitiesRef := Some (one e);
                  multipleEntities := Some false |} ->
             entityOrEntitiesRef (useEffect props d) = Some (one e)
             /\ multipleEntities (rendered props d) = Some false
             /\ dialogTitle (render props (rendered props d))
                = ("Would you like to delete this "
                   ++ name (info (schema props)) ++ "?")%string
             /\ exists t,
                  dialogContent (render props (rendered props d))
                  = Some (Some (EntityPreview (one t) (schema props)))
                  /\ (multipleEntities d <> Some false -> t = e)
                  /\ (multipleEntities d = Some false ->
                      entityOrEntitiesRef d = Some (one t))).
  { intros e Hd. split; [rewrite Hd; reflexivity|].
    destruct (multipleEntities d) as [[|]|] eqn:Hm.
    - rewrite rendered_changed by (rewrite Hd, Hm; discriminate).
      rewrite Hd. unfold render. simpl.
      split; [reflexivity|]. split; [reflexivity|].
      exists e. repeat split. intros H; discriminate.
    - assert (Hsame : rendered props d = d)
        by (apply rendered_unchanged; rewrite Hd, Hm; reflexivity).
      rewrite Hsame. unfold render. rewrite Hm. simpl truthy. cbv iota.
      unfold coherent in Hco.
      destruct (entityOrEntitiesRef d) as [[t|es]|] eqn:Hr.
      + split; [reflexivity|]. split; [reflexivity|].
        exists t. repeat split. intros H; contradiction.
      + try rewrite Hm in Hco. discriminate.
      + specialize (Hset eq_refl). try rewrite Hm in Hset. discriminate.
    - rewrite rendered_changed by (rewrite Hd, Hm; discriminate).
      rewrite Hd. unfold render. simpl.
      split; [reflexivity|]. split; [reflexivity|].
      exists e. repeat split. intros H; discriminate. }
  assert (Hbatch : forall es,
             useEffect props d
             = {| loading := loading d;
                  entityOrEntitiesRef := Some (many es);
                  multipleEntities := Some true |} ->
             entityOrEntitiesRef (useEffect props d) = Some (many es)
             /\ multipleEntities (rendered props d) = Some true
             /\ dialogTitle (render props (rendered props d))
                = (name (info (schema props)) ++ ": Confirm multiple delete?")%string
             /\ dialogContent (render props (rendered props d)) = None).
  { intros es Hd. split; [rewrite Hd; reflexivity|].
    assert (Hm : multipleEntities (rendered props d) = Some true).
    { destruct (multipleEntities d) as [[|]|] eqn:Hm.
      - rewrite rendered_unchanged by (rewrite Hd, Hm; reflexivity). exact Hm.
      - rewrite rendered_changed by (rewrite Hd, Hm; discriminate).
        rewrite Hd. reflexivity.
      - rewrite rendered_changed by (rewrite Hd, Hm; discriminate).
        rewrite Hd. reflexivity. }
    split; [exact Hm|]. unfold render. rewrite Hm. split; reflexivity. }
  cbv zeta.
  destruct given as [e | [|e [|e' es]]].
  - apply Hsingle. unfold useEffect. rewrite Hgiven. reflexivity.
  - apply Hbatch. unfold useEffect. rewrite Hgiven. reflexivity.
  - apply Hsingle. unfold useEffect. rewrite Hgiven. reflexivity.
  - apply Hbatch. unfold useEffect. rewrite Hgiven. reflexivity.
Qed.

(** X3: the element "Multiple entities" is never on screen.  [content] is
    that element only when [multipleEntities] is truthy, and the
    [DialogContent] that would show it is rendered only when it is not. *)
Theorem multiple_entities_div_never_shown (d : DialogState M) :
  dialogContent (render props d) <> Some (Some (MultipleEntitiesDiv M CMSAppContext)).
Proof.
  unfold render. simpl.
  destruct (truthy (multipleEntities d)); [discriminate|].
  destruct (entityOrEntitiesRef d); discriminate.
Qed.

(** X4: the spinner is shown, and the Cancel and Ok buttons are hidden,
    exactly while a delete started by [Ok] has not had its callback run.
    So [Ok] cannot be pressed again while deletes are in flight, and the
    buttons are back as soon as the callback has run, also after a failed
    single delete. *)
Theorem spinner_exactly_while_pending (x x' : World') (sched : list nat)
  (job : option (Job M Store)) :
  coherent (ui x) ->
  entityOrEntitiesRef (ui x) <> None ->
  press sched x = Some (x', job) ->
  circularProgress (render props (ui x'))
  = match job with Some _ => true | None => false end
  /\ dialogActions (render props (ui x'))
     = match job with Some _ => false | None => true end.
Proof.
  intros Hco Hsome Hrun. unfold render. simpl.
  destruct (coherent_cases _ Hco) as [Hnone | [(e & Href & Hmulti) | (es & Href & Hmulti)]];
    [contradiction | |].
  - destruct job as [j|].
    + rewrite (single_pending x sched Href Hmulti Hrun). split; reflexivity.
    + destruct (single_fired x sched Href Hmulti Hrun) as (b & _ & ->).
      one_then_facts Hl Ht. rewrite Hl. split; reflexivity.
  - destruct job as [j|].
    + rewrite (batch_pending x sched Href Hmulti Hrun). split; reflexivity.
    + destruct (batch_fired x sched Href Hmulti Hrun) as (results & _ & ->).
      all_then_facts Hl Ht. rewrite Hl. split; reflexivity.
Qed.

(** X5: a rejected delete hangs the batch.  [Promise.all] has no
    rejection handler here: once the promise of one delete of the batch is
    rejected, the callback never runs, however long the event loop goes
    on; the dialog keeps loading with its buttons hidden, and nothing but
    the operations has touched the environment. *)
Theorem rejected_delete_hangs_batch (x : World') (es : list Entity')
  (pre post : list nat) (err : Error) :
  entityOrEntitiesRef (ui x) = Some (many es) ->
  multipleEntities (ui x) = Some true ->
  In (Rejected err) (snd (ops es pre (env x))) ->
  exists x' j,
    press (pre ++ post) x = Some (x', Some j)
    /\ loading (ui x') = true
    /\ dialogActions (render props (ui x')) = false
    /\ env x' = fst (ops es (pre ++ post) (env x)).
Proof.
  intros Href Hmulti Hrej.
  assert (Hnone : fulfilled_values (snd (ops es (pre ++ post) (env x))) = None).
  { apply fulfilled_values_rejected with (err := err).
    rewrite operations_app. apply steps_keep_rejected, Hrej. }
  destruct (ok_then_run_batch deleteEntity context props x (pre ++ post) Href Hmulti)
    as [[_ Hr] | (pre' & post' & results & Hs & Hf & _)].
  - eexists _, _. split; [exact Hr|]. repeat split.
  - exfalso. rewrite Hs in Hnone.
    rewrite (operations_settled es pre' post' (env x) Hf), Hf in Hnone.
    discriminate.
Qed.

(** X6: a rejected delete hangs the single dialog as well: the callback
    given to [then] never runs, the dialog keeps loading with its buttons
    hidden, and [onClose] is not called by the dialog. *)
Theorem rejected_delete_hangs_single (x : World') (e : Entity') (m : nat)
  (sched : list nat) (err : Error) :
  entityOrEntitiesRef (ui x) = Some (one e) ->
  truthy (multipleEntities (ui x)) = false ->
  snd (resume_n (S m) (delete_of e) (env x)) = Rejected err ->
  exists x' j,
    press sched x = Some (x', Some j)
    /\ loading (ui x') = true
    /\ dialogActions (render props (ui x')) = false
    /\ env x' = fst (resume_n (S (List.length sched)) (delete_of e) (env x)).
Proof.
  intros Href Hmulti Hrej.
  destruct (ok_then_run_single deleteEntity context props x sched Href Hmulti)
    as [[_ Hr] | (m' & b & _ & Hf & _)].
  - eexists _, _. split; [exact Hr|]. repeat split.
  - exfalso. destruct (Nat.le_ge_cases (S m) (S m')) as [Hle | Hle].
    + rewrite (resume_n_rejected_later _ _ Hle Hrej) in Hf. discriminate.
    + rewrite (resume_n_fulfilled_later _ _ Hle Hf) in Hrej. discriminate.
Qed.

(** X7: a batch always closes the dialog.  Once the callback of a batch
    has run, [loading] is false and the dialog has called [onClose]
    exactly once more than the operations left in the trace, whatever the
    results are: also when every delete failed, where the single-entity
    dialog would stay open. *)
Theorem batch_always_closes (x x' : World') (es : list Entity') (sched : list nat) :
  entityOrEntitiesRef (ui x) = Some (many es) ->
  multipleEntities (ui x) = Some true ->
  press sched x = Some (x', None) ->
  loading (ui x') = false
  /\ close_calls (trace (env x'))
     = S (close_calls (trace (fst (ops es sched (env x))))).
Proof.
  intros Href Hmulti Hrun.
  destruct (batch_fired x sched Href Hmulti Hrun) as (results & _ & ->).
  all_then_facts Hl Ht. split; [exact Hl|].
  rewrite Ht. simpl env. rewrite !close_calls_app.
  destruct (onMultipleEntitiesDelete props); simpl; lia.
Qed.

(** X8: the dialog itself never touches the store.  After [Ok] and any
    turns of the event loop, callback run or not, the store and the store
    calls in the trace are exactly those the delete operations left. *)
Theorem dialog_leaves_store_to_operations (x x' : World') (sched : list nat)
  (job : option (Job M Store)) :
  coherent (ui x) ->
  press sched x = Some (x', job) ->
  let w := match entityOrEntitiesRef (ui x) with
           | None => env x
           | Some (one e) =>
               fst (resume_n (S (List.length sched)) (delete_of e) (env x))
           | Some (many es) => fst (ops es sched (env x))
           end in
  store (env x') = store w
  /\ store_delete_calls (trace (env x')) = store_delete_calls (trace w)
  /\ store_save_calls (trace (env x')) = store_save_calls (trace w).
Proof.
  intros Hco Hrun.
  destruct (coherent_cases _ Hco) as [Hnone | [(e & Href & Hmulti) | (es & Href & Hmulti)]].
  - rewrite Hnone. unfold ok_then_run, handleOk in Hrun.
    rewrite Hnone, run_settled in Hrun. injection Hrun as <- _.
    repeat split.
  - rewrite Href. destruct job as [j|].
    + rewrite (single_pending x sched Href Hmulti Hrun). repeat split.
    + destruct (single_fired x sched Href Hmulti Hrun) as (b & _ & ->).
      match goal with
      | |- context [one_then ?p ?e0 ?b0 ?y] =>
          destruct (one_then_effect p e0 b0 y) as (_ & _ & _ & Hs & Ht)
      end.
      cbv zeta. split; [rewrite Hs; reflexivity|].
      rewrite Ht. cbn [env].
      rewrite store_delete_calls_app, store_save_calls_app.
      destruct b; destruct (onEntityDelete props);
        cbn [store_delete_calls store_save_calls app];
        rewrite ?app_nil_r; split; reflexivity.
  - rewrite Href. destruct job as [j|].
    + rewrite (batch_pending x sched Href Hmulti Hrun). repeat split.
    + destruct (batch_fired x sched Href Hmulti Hrun) as (results & _ & ->).
      destruct (all_then_effect props es results
                  {| ui := ui (setLoading true x);
                     env := fst (ops es sched (env x)) |})
        as (_ & _ & _ & Hs & Ht).
      cbv zeta. split; [rewrite Hs; reflexivity|].
      rewrite Ht. cbn [env].
      rewrite !store_delete_calls_app, !store_save_calls_app.
      destruct (onMultipleEntitiesDelete props);
        cbn [store_delete_calls store_save_calls app];
        rewrite ?app_nil_r; split; reflexivity.
Qed.

(** X9: [Ok] never changes what is selected.  In a state where the ref
    and [multipleEntities] agree, [Ok] has a behaviour, and after it and
    any turns of the event loop the ref and [multipleEntities] are what
    they were, so that they still agree; only [loading] moves. *)
Theorem ok_keeps_selection (x : World') (sched : list nat) :
  coherent (ui x) ->
  exists x' job,
    press sched x = Some (x', job)
    /\ entityOrEntitiesRef (ui x') = entityOrEntitiesRef (ui x)
    /\ multipleEntities (ui x') = multipleEntities (ui x)
    /\ coherent (ui x').
Proof.
  intros Hco.
  destruct (handleOk_defined deleteEntity context props x Hco) as [st Hst].
  assert (Hrun : press sched x = Some (run props sched st)).
  { unfold ok_then_run. rewrite Hst. reflexivity. }
  destruct (run props sched st) as [x' job].
  exists x', job. split; [exact Hrun|].
  assert (Hsame : entityOrEntitiesRef (ui x') = entityOrEntitiesRef (ui x)
                  /\ multipleEntities (ui x') = multipleEntities (ui x)).
  { destruct (coherent_cases _ Hco)
      as [Hnone | [(e & Href & Hmulti) | (es & Href & Hmulti)]].
    - unfold ok_then_run, handleOk in Hrun.
      rewrite Hnone, run_settled in Hrun. injection Hrun as <- _.
      split; reflexivity.
    - destruct job as [j|].
      + rewrite (single_pending x sched Href Hmulti Hrun). split; reflexivity.
      + destruct (single_fired x sched Href Hmulti Hrun) as (b & _ & ->).
        destruct (one_then_effect props e b
                    {| ui := ui (setLoading true x);
                       env := fst (resume_n (S (List.length sched)) (delete_of e)
                                     (env x)) |})
          as (_ & Hr & Hm & _).
        rewrite Hr, Hm. split; reflexivity.
    - destruct job as [j|].
      + rewrite (batch_pending x sched Href Hmulti Hrun). split; reflexivity.
      + destruct (batch_fired x sched Href Hmulti Hrun) as (results & _ & ->).
        destruct (all_then_effect props es results
                    {| ui := ui (setLoading true x);
                       env := fst (ops es sched (env x)) |})
          as (_ & Hr & Hm & _).
        rewrite Hr, Hm. split; reflexivity. }
  destruct Hsame as [Hr Hm]. repeat split; try assumption.
  unfold coherent in *. rewrite Hr, Hm. exact Hco.
Qed.

(** X10: the effect normalises whatever it is given.  When
    [entityOrEntitiesToDelete] is set, the state the effect leaves has the
    ref and [multipleEntities] in agreement and never an array of exactly
    one entity in the ref, whatever the state was before; [loading] is not
    touched; and running the effect again changes nothing.  When it is
    not set, the previous selection stays. *)
Theorem effect_normalises (d : DialogState M) :
  loading (useEffect props d) = loading d
  /\ useEffect props (useEffect props d) = useEffect props d
  /\ (entityOrEntitiesToDelete props = None -> useEffect props d = d)
  /\ (entityOrEntitiesToDelete props <> None ->
      coherent (useEffect props d) /\ normal (useEffect props d)).
Proof.
  unfold useEffect.
  destruct (entityOrEntitiesToDelete props) as [given|].
  - split; [reflexivity|]. split; [reflexivity|].
    split; [discriminate|]. intros _. split.
    + unfold coherent. reflexivity.
    + intros e0. simpl.
      destruct given as [e | [|e [|e' es]]]; discriminate.
  - split; [reflexivity|]. split; [reflexivity|].
    split; [reflexivity|]. intros H. contradiction.
Qed.

(** X11: each path calls its own callback only.  After [Ok] and any
    turns of the event loop, a batch has added no call of [onEntityDelete]
    and a single delete no call of [onMultipleEntitiesDelete] to what the
    delete operations left in the trace; and when the parent supplied
    neither callback, the dialog has added no call of either. *)
Theorem callbacks_are_exclusive (x x' : World') (sched : list nat)
  (job : option (Job M Store)) :
  coherent (ui x) ->
  press sched x = Some (x', job) ->
  match entityOrEntitiesRef (ui x) with
  | None => trace (env x') = trace (env x)
  | Some (one e) =>
      let w := fst (resume_n (S (List.length sched)) (delete_of e) (env x)) in
      batch_callbacks (trace (env x')) = batch_callbacks (trace w)
      /\ (onEntityDelete props = false ->
          entity_callbacks (trace (env x')) = entity_callbacks (trace w))
  | Some (many es) =>
      let w := fst (ops es sched (env x)) in
      entity_callbacks (trace (env x')) = entity_callbacks (trace w)
      /\ (onMultipleEntitiesDelete props = false ->
          batch_callbacks (trace (env x')) = batch_callbacks (trace w))
  end.
Proof.
  intros Hco Hrun.
  destruct (coherent_cases _ Hco) as [Hnone | [(e & Href & Hmulti) | (es & Href & Hmulti)]].
  - rewrite Hnone. unfold ok_then_run, handleOk in Hrun.
    rewrite Hnone, run_settled in Hrun. injection Hrun as <- _. reflexivity.
  - rewrite Href. destruct job as [j|].
    + rewrite (single_pending x sched Href Hmulti Hrun). split; reflexivity.
    + destruct (single_fired x sched Href Hmulti Hrun) as (b & _ & ->).
      one_then_facts Hl Ht. cbv zeta. rewrite Ht. cbn [env].
      rewrite batch_callbacks_app, entity_callbacks_app.
      split.
      * destruct b; destruct (onEntityDelete props);
          cbn [batch_callbacks app]; rewrite ?app_nil_r; reflexivity.
      * intros ->. destruct b;
          cbn [entity_callbacks app]; rewrite ?app_nil_r; reflexivity.
  - rewrite Href. destruct job as [j|].
    + rewrite (batch_pending x sched Href Hmulti Hrun). split; reflexivity.
    + destruct (batch_fired x sched Href Hmulti Hrun) as (results & _ & ->).
      all_then_facts Hl Ht. cbv zeta. rewrite Ht. cbn [env].
      rewrite !batch_callbacks_app, !entity_callbacks_app.
      split.
      * destruct (onMultipleEntitiesDelete props);
          cbn [entity_callbacks app]; rewrite ?app_nil_r; reflexivity.
      * intros ->. cbn [batch_callbacks app]. rewrite ?app_nil_r. reflexivity.
Qed.


End DialogExtras.

(** ** The sample shop, further runs *)

Section MoreRuns.

Import Sample Scenario.

#[local] Abbreviation engine := (@deleteEntity Values unit MemStore _).

(** [empty_batch_succeeds_at_once] on the dialog that was opened on
    product 1 before and is now given an empty array. *)
Lemma empty_batch_succeeds_at_once_witness :
  entityOrEntitiesToDelete empty_props = Some (many [])
  /\ multipleEntities after_product_1 <> Some true
  /\ exists x',
       ok_then_run engine tt empty_props [0; 1]
         {| ui := rendered empty_props after_product_1; env := shop [] |}
       = Some (x', None)
       /\ loading (ui x') = false
       /\ store (env x') = store (shop [])
       /\ trace (env x')
          = trace (shop [])
            ++ (if onMultipleEntitiesDelete empty_props
                then [call_onMultipleEntitiesDelete (collectionPath empty_props) []]
                else [])
            ++ [snackbar_open
                  {| type := type_success; title := None;
                     body := Some "Product: multiple deleted"%string |};
                call_onClose].
Proof.
  assert (H1 : entityOrEntitiesToDelete empty_props = Some (many []))
    by reflexivity.
  assert (H2 : multipleEntities after_product_1 <> Some true) by discriminate.
  split; [exact H1|]. split; [exact H2|].
  exact (empty_batch_succeeds_at_once engine tt empty_props after_product_1
           (shop []) [0; 1] H1 H2).
Defined.

(** [effect_then_render] on product 2 given as an entity to a dialog that
    was opened on product 1 before: the preview is still that of
    product 1. *)
Lemma effect_then_render_witness :
  entityOrEntitiesToDelete direct_props = Some (one (product "2"))
  /\ consistent after_product_1
  /\ entityOrEntitiesRef (useEffect direct_props after_product_1)
     = Some (one (product "2"))
  /\ multipleEntities (rendered direct_props after_product_1) = Some false
  /\ dialogTitle (render direct_props (rendered direct_props after_product_1))
     = "Would you like to delete this Product?"%string
  /\ exists t,
       dialogContent (render direct_props (rendered direct_props after_product_1))
       = Some (Some (EntityPreview (one t) Product))
       /\ (multipleEntities after_product_1 <> Some false -> t = product "2")
       /\ (multipleEntities after_product_1 = Some false ->
           entityOrEntitiesRef after_product_1 = Some (one t)).
Proof.
  assert (H1 : entityOrEntitiesToDelete direct_props = Some (one (product "2")))
    by reflexivity.
  assert (H2 : consistent after_product_1).
  { split; [reflexivity|]. split; [intros e; discriminate | discriminate]. }
  split; [exact H1|]. split; [exact H2|].
  exact (effect_then_render direct_props H1 H2).
Defined.

(** [spinner_exactly_while_pending] on the batch that the shop refuses
    in part, once its callback has run. *)
Lemma spinner_exactly_while_pending_witness :
  coherent (ui (batch_dialog ["2"]))
  /\ entityOrEntitiesRef (ui (batch_dialog ["2"])) <> None
  /\ ok_then_run engine tt batch_props two_rounds (batch_dialog ["2"])
     = Some (batch_end ["2"], None)
  /\ circularProgress (render batch_props (ui (batch_end ["2"]))) = false
  /\ dialogActions (render batch_props (ui (batch_end ["2"]))) = true.
Proof.
  assert (H1 : coherent (ui (batch_dialog ["2"]))) by reflexivity.
  assert (H2 : entityOrEntitiesRef (ui (batch_dialog ["2"])) <> None)
    by discriminate.
  assert (H3 : ok_then_run engine tt batch_props two_rounds (batch_dialog ["2"])
               = Some (batch_end ["2"], None))
    by (vm_compute; reflexivity).
  split; [exact H1|]. split; [exact H2|]. split; [exact H3|].
  exact (spinner_exactly_while_pending engine tt batch_props (batch_dialog ["2"])
           two_rounds H1 H2 H3).
Defined.

(** [rejected_delete_hangs_batch] on the batch whose delete of product 2
    is rejected at the first turn given to it. *)
Lemma rejected_delete_hangs_batch_witness :
  entityOrEntitiesRef (ui (batch_dialog [])) = Some (many three)
  /\ multipleEntities (ui (batch_dialog [])) = Some true
  /\ In (Rejected {| message := "offline" |})
        (snd (operations offline_for_2 tt batch_props three [1]
                (env (batch_dialog []))))
  /\ exists x' j,
       ok_then_run offline_for_2 tt batch_props ([1] ++ [0; 2; 0; 1; 2])
         (batch_dialog [])
       = Some (x', Some j)
       /\ loading (ui x') = true
       /\ dialogActions (render batch_props (ui x')) = false
       /\ env x' = fst (operations offline_for_2 tt batch_props three
                          ([1] ++ [0; 2; 0; 1; 2]) (env (batch_dialog []))).
Proof.
  assert (H1 : entityOrEntitiesRef (ui (batch_dialog [])) = Some (many three))
    by reflexivity.
  assert (H2 : multipleEntities (ui (batch_dialog [])) = Some true)
    by reflexivity.
  assert (H3 : In (Rejected {| message := "offline" |})
                  (snd (operations offline_for_2 tt batch_props three [1]
                          (env (batch_dialog [])))))
    by (vm_compute; right; left; reflexivity).
  split; [exact H1|]. split; [exact H2|]. split; [exact H3|].
  exact (rejected_delete_hangs_batch offline_for_2 tt batch_props (batch_dialog [])
           [1] [0; 2; 0; 1; 2] {| message := "offline" |} H1 H2 H3).
Defined.

(** [rejected_delete_hangs_single] on the single dialog over the same
    [deleteEntity]. *)
Lemma rejected_delete_hangs_single_witness :
  entityOrEntitiesRef (ui (single_dialog [])) = Some (one (product "2"))
  /\ truthy (multipleEntities (ui (single_dialog []))) = false
  /\ snd (resume_n 2 (performDelete offline_for_2 tt single_props (product "2"))
            (env (single_dialog [])))
     = Rejected {| message := "offline" |}
  /\ exists x' j,
       ok_then_run offline_for_2 tt single_props [0; 0; 0] (single_dialog [])
       = Some (x', Some j)
       /\ loading (ui x') = true
       /\ dialogActions (render single_props (ui x')) = false
       /\ env x' = fst (resume_n 4
                          (performDelete offline_for_2 tt single_props (product "2"))
                          (env (single_dialog []))).
Proof.
  assert (H1 : entityOrEntitiesRef (ui (single_dialog []))
               = Some (one (product "2"))) by reflexivity.
  assert (H2 : truthy (multipleEntities (ui (single_dialog []))) = false)
    by reflexivity.
  assert (H3 : snd (resume_n 2
                      (performDelete offline_for_2 tt single_props (product "2"))
                      (env (single_dialog [])))
               = Rejected {| message := "offline" |}) by reflexivity.
  split; [exact H1|]. split; [exact H2|]. split; [exact H3|].
  exact (rejected_delete_hangs_single offline_for_2 tt single_props
           (single_dialog []) 1 [0; 0; 0] H1 H2 H3).
Defined.

(** [batch_always_closes] on the batch that the shop refuses one and
    all. *)
Lemma batch_always_closes_witness :
  entityOrEntitiesRef (ui (batch_dialog ["1"; "2"; "3"])) = Some (many three)
  /\ multipleEntities (ui (batch_dialog ["1"; "2"; "3"])) = Some true
  /\ ok_then_run engine tt batch_props two_rounds (batch_dialog ["1"; "2"; "3"])
     = Some (batch_end ["1"; "2"; "3"], None)
  /\ loading (ui (batch_end ["1"; "2"; "3"])) = false
  /\ close_calls (trace (env (batch_end ["1"; "2"; "3"])))
     = S (close_calls
            (trace (fst (operations engine tt batch_props three two_rounds
                           (env (batch_dialog ["1"; "2"; "3"])))))).
Proof.
  assert (H1 : entityOrEntitiesRef (ui (batch_dialog ["1"; "2"; "3"]))
               = Some (many three)) by reflexivity.
  assert (H2 : multipleEntities (ui (batch_dialog ["1"; "2"; "3"])) = Some true)
    by reflexivity.
  assert (H3 : ok_then_run engine tt batch_props two_rounds
                 (batch_dialog ["1"; "2"; "3"])
               = Some (batch_end ["1"; "2"; "3"], None))
    by (vm_compute; reflexivity).
  split; [exact H1|]. split; [exact H2|]. split; [exact H3|].
  exact (batch_always_closes engine tt batch_props (batch_dialog ["1"; "2"; "3"])
           two_rounds H1 H2 H3).
Defined.

(** [dialog_leaves_store_to_operations] on the batch that the shop
    refuses in part. *)
Lemma dialog_leaves_store_to_operations_witness :
  coherent (ui (batch_dialog ["2"]))
  /\ ok_then_run engine tt batch_props two_rounds (batch_dialog ["2"])
     = Some (batch_end ["2"], None)
  /\ store (env (batch_end ["2"]))
     = store (fst (operations engine tt batch_props three two_rounds
                     (env (batch_dialog ["2"]))))
  /\ store_delete_calls (trace (env (batch_end ["2"])))
     = store_delete_calls
         (trace (fst (operations engine tt batch_props three two_rounds
                        (env (batch_dialog ["2"])))))
  /\ store_save_calls (trace (env (batch_end ["2"])))
     = store_save_calls
         (trace (fst (operations engine tt batch_props three two_rounds
                        (env (batch_dialog ["2"]))))).
Proof.
  assert (H1 : coherent (ui (batch_dialog ["2"]))) by reflexivity.
  assert (H2 : ok_then_run engine tt batch_props two_rounds (batch_dialog ["2"])
               = Some (batch_end ["2"], None))
    by (vm_compute; reflexivity).
  split; [exact H1|]. split; [exact H2|].
  exact (dialog_leaves_store_to_operations engine tt batch_props
           (batch_dialog ["2"]) two_rounds H1 H2).
Defined.

(** [ok_keeps_selection] on the single dialog over product 2. *)
Lemma ok_keeps_selection_witness :
  coherent (ui (single_dialog ["2"]))
  /\ exists x' job,
       ok_then_run engine tt single_props [0; 0] (single_dialog ["2"])
       = Some (x', job)
       /\ entityOrEntitiesRef (ui x') = entityOrEntitiesRef (ui (single_dialog ["2"]))
       /\ multipleEntities (ui x') = multipleEntities (ui (single_dialog ["2"]))
       /\ coherent (ui x').
Proof.
  assert (H1 : coherent (ui (single_dialog ["2"]))) by reflexivity.
  split; [exact H1|].
  exact (ok_keeps_selection engine tt single_props (single_dialog ["2"]) [0; 0] H1).
Defined.

(** [callbacks_are_exclusive] on the batch that the shop refuses in
    part. *)
Lemma callbacks_are_exclusive_witness :
  coherent (ui (batch_dialog ["2"]))
  /\ ok_then_run engine tt batch_props two_rounds (batch_dialog ["2"])
     = Some (batch_end ["2"], None)
  /\ entity_callbacks (trace (env (batch_end ["2"])))
     = entity_callbacks
         (trace (fst (operations engine tt batch_props three two_rounds
                        (env (batch_dialog ["2"])))))
  /\ (onMultipleEntitiesDelete batch_props = false ->
      batch_callbacks (trace (env (batch_end ["2"])))
      = batch_callbacks
          (trace (fst (operations engine tt batch_props three two_rounds
                         (env (batch_dialog ["2"])))))).
Proof.
  assert (H1 : coherent (ui (batch_dialog ["2"]))) by reflexivity.
  assert (H2 : ok_then_run engine tt batch_props two_rounds (batch_dialog ["2"])
               = Some (batch_end ["2"], None))
    by (vm_compute; reflexivity).
  split; [exact H1|]. split; [exact H2|].
  exact (callbacks_are_exclusive engine tt batch_props (batch_dialog ["2"])
           two_rounds H1 H2).
Defined.


End MoreRuns.
